(** * publish.li: the handle validators and the /api handlers

    A shallow embedding of [src/cmd/publish/handlers.go] and of the handle
    validators that accompany it (package [main] of
    github.com/appsattic/publish.li).

    Go strings are byte sequences; they are modelled by [string], whose
    characters are the 256 byte values.  A Go [map[string]V] is a
    [gmap string V]. *)

From Stdlib Require Import ZArith NArith Ascii.
From stdpp Require Import base strings gmap sorting.

Local Open Scope bool_scope.

(** ** The functions of Go's [strings] package that the validators call *)

Module GoStrings.

(** [utf8.RuneSelf]: bytes below it are single-byte runes. *)
Definition RuneSelf : N := 128.

Definition byteIn (lo hi c : ascii) : bool :=
  (N_of_ascii lo <=? N_of_ascii c)%N && (N_of_ascii c <=? N_of_ascii hi)%N.

(** [asciiSet.contains]: membership of a byte in an ASCII cutset. *)
Fixpoint contains (cutset : string) (c : ascii) : bool :=
  match cutset with
  | EmptyString => false
  | String d cutset' => Ascii.eqb c d || contains cutset' c
  end.

(** [trimLeftASCII]: drop leading bytes while they are in the cutset. *)
Fixpoint trimLeftASCII (s cutset : string) : string :=
  match s with
  | EmptyString => EmptyString
  | String c s' => if contains cutset c then trimLeftASCII s' cutset else s
  end.

(** [trimRightASCII]: drop trailing bytes while they are in the cutset. *)
Definition trimRightASCII (s cutset : string) : string :=
  String.rev (trimLeftASCII (String.rev s) cutset).

(** [strings.Trim], for a cutset of ASCII bytes (every cutset of this
    program is one).  A rune of the cutset is then a single byte below
    [RuneSelf], and no byte of a multi-byte rune equals one, so trimming
    runes and trimming bytes agree. *)
Definition Trim (s cutset : string) : string :=
  match s, cutset with
  | EmptyString, _ => s
  | _, EmptyString => s
  | _, _ => trimLeftASCII (trimRightASCII s cutset) cutset
  end.

Fixpoint isASCII (s : string) : bool :=
  match s with
  | EmptyString => true
  | String c s' => (N_of_ascii c <? RuneSelf)%N && isASCII s'
  end.

Fixpoint hasUpper (s : string) : bool :=
  match s with
  | EmptyString => false
  | String c s' => byteIn "A" "Z" c || hasUpper s'
  end.

(** [c += 'a' - 'A'] for an upper-case ASCII byte. *)
Definition lowerByte (c : ascii) : ascii :=
  if byteIn "A" "Z" c then ascii_of_N (N_of_ascii c + 32) else c.

Fixpoint mapBytes (f : ascii -> ascii) (s : string) : string :=
  match s with
  | EmptyString => EmptyString
  | String c s' => String (f c) (mapBytes f s')
  end.

Section ToLower.
(** [strings.Map(unicode.ToLower, s)], which [strings.ToLower] falls back
    to for a string with a byte outside ASCII.  It consults the Unicode
    case tables of the Go runtime, which are no part of this program. *)
Variable MapUnicodeToLower : string -> string.

(** [strings.ToLower]: the ASCII path is written out. *)
Definition ToLower (s : string) : string :=
  if isASCII s then
    if negb (hasUpper s) then s else mapBytes lowerByte s
  else MapUnicodeToLower s.
End ToLower.

(** Every byte of [s] satisfies [p]. *)
Fixpoint allBytes (p : ascii -> bool) (s : string) : bool :=
  match s with
  | EmptyString => true
  | String c s' => p c && allBytes p s'
  end.

End GoStrings.

Import GoStrings.

(** ** The handle validators *)

Definition chars : string := "abcdefghijklmnopqrstuvwxyz".
Definition twitterChars : string := chars +:+ "_".
Definition facebookChars : string := chars +:+ ".".
Definition githubChars : string := chars +:+ "-".
Definition instagramChars : string := chars.

Section Validators.
Variable MapUnicodeToLower : string -> string.

Definition isEmptyString (s : string) : bool :=
  match s with EmptyString => true | _ => false end.

Definition isValidTwitterHandle (handle : string) : bool :=
  isEmptyString (Trim (ToLower MapUnicodeToLower handle) twitterChars).

Definition isValidFacebookHandle (handle : string) : bool :=
  isEmptyString (Trim (ToLower MapUnicodeToLower handle) facebookChars).

Definition isValidGitHubHandle (handle : string) : bool :=
  isEmptyString (Trim (ToLower MapUnicodeToLower handle) githubChars).

Definition isValidInstagramHandle (handle : string) : bool :=
  isEmptyString (Trim (ToLower MapUnicodeToLower handle) instagramChars).
End Validators.

(** ** Pages, requests and responses *)

(** [time.Time], as a number of ticks. *)
Definition Time : Type := Z.

(** The [Page] record, with the fields the handlers read and write. *)
Record Page : Type := mkPage {
  Id : string;
  Name : string;
  Title : string;
  Author : string;
  Website : string;
  Content : string;
  Twitter : string;
  Facebook : string;
  GitHub : string;
  Instagram : string;
  Html : string;          (* template.HTML, a string type *)
  Inserted : Time;
  Updated : Time
}.

Definition setHtml (page : Page) (html : string) : Page :=
  mkPage (Id page) (Name page) (Title page) (Author page) (Website page)
         (Content page) (Twitter page) (Facebook page) (GitHub page)
         (Instagram page) html (Inserted page) (Updated page).

(** What a handler writes to its [http.ResponseWriter].  [sendError],
    [sendJson] and [http.Error] are recorded as the calls they are. *)
Inductive Payload : Type :=
| PayloadMap (fields : gmap string string)   (* map[string]string *)
| PayloadPage (page : Page).                 (* *Page *)

Inductive Response : Type :=
| SendError (msg : string)
| HttpError (msg : string) (code : Z)
| SendJson (Ok : bool) (Msg : string) (payload : Payload).

Definition StatusInternalServerError : Z := 500.

(** ** The page store *)

(** The two buckets of the bolt database. *)
Record DB : Type := mkDB {
  byName : gmap string Page;     (* name -> page *)
  byId : gmap string string      (* id -> name *)
}.

Definition emptyDB : DB := mkDB ∅ ∅.

(** A Go [error] is represented by its message; [None] is [nil]. *)
Definition error : Type := option string.

(** Modelled from the spec: [storePutPage] is declared outside
    handlers.go.  Section 4.2, Put: in one transaction the by-name entry of
    [page.Name] is overwritten with the record and the by-id entry maps
    [page.Id] to [page.Name]; on a failed commit nothing is applied.
    Whether the commit fails is decided by the environment ([fault]). *)
Definition storePutPage (fault : error) (db : DB) (page : Page) : DB * error :=
  match fault with
  | Some e => (db, Some e)
  | None => (mkDB (<[Name page := page]> (byName db))
                  (<[Id page := Name page]> (byId db)), None)
  end.

(** Modelled from the spec: [storeGetPage] is declared outside
    handlers.go.  Section 4.2, GetByName: [nil, nil] when the key is
    absent, the page otherwise, an error only on a storage fault. *)
Definition storeGetPage (fault : error) (db : DB) (name : string)
  : option Page * error :=
  match fault with
  | Some e => (None, Some e)
  | None => (byName db !! name, None)
  end.

(** Modelled from the spec: [storeGetPageUsingId] is declared outside
    handlers.go.  Section 4.2, GetById: resolve the id to a name, then read
    the page; [nil, nil] when the id is absent; an id whose name has no
    record is an error. *)
Definition storeGetPageUsingId (fault : error) (db : DB) (id : string)
  : option Page * error :=
  match fault with
  | Some e => (None, Some e)
  | None =>
      match byId db !! id with
      | None => (None, None)
      | Some name =>
          match byName db !! name with
          | None => (None, Some "page id refers to a missing page")
          | Some page => (Some page, None)
          end
      end
  end.

(** Every record sits under its own name, and every id points at a record
    that carries it: what [storePutPage] maintains from [emptyDB]. *)
Definition wfDB (db : DB) : Prop :=
  ∀ (name : string) (page : Page), byName db !! name = Some page → Name page = name.

(** ** Collaborators from other packages and files *)

Class Externals : Type := {
  (** [strings.Map(unicode.ToLower, s)], see [GoStrings.ToLower]. *)
  MapUnicodeToLower : string → string;
  (** [slugify.Slugify] of github.com/Machiel/slugify. *)
  Slugify : string → string;
  (** [*url.URL], [url.ParseRequestURI] ([None] when [err != nil]) and the
      [String] method. *)
  URL : Type;
  ParseRequestURI : string → option URL;
  URLString : URL → string;
  (** [blackfriday.MarkdownCommon], on strings. *)
  MarkdownCommon : string → string;
  (** [randStr], declared outside handlers.go: it draws from a random
      source, whose state is threaded. *)
  Rng : Type;
  randStr : Z → Rng → string * Rng
}.

(** ** Handlers as state transformers with an early return *)

Inductive StoreCall : Type :=
| CallGet (name : string)
| CallGetById (id : string)
| CallPut (page : Page).

Definition isPut (c : StoreCall) : bool :=
  match c with CallPut _ => true | _ => false end.

Section Handlers.
Context `{E : Externals}.

(** The state a handler runs in: the database, the random source, and the
    log of the store calls made so far (oldest first). *)
Record World : Type := mkWorld {
  store : DB;
  rng : Rng;
  calls : list StoreCall
}.

(** What the environment supplies to one request: the form values, the
    reading of the clock, and whether the store's read and commit fail. *)
Record Input : Type := mkInput {
  form : gmap string string;
  now : Time;
  getFault : error;
  putFault : error
}.

(** [r.FormValue(key)]: the value, or the empty string when absent. *)
Definition FormValue (r : Input) (key : string) : string :=
  default "" (form r !! key).

(** [inl r]: the response [r] was written and the handler returned. *)
Definition Handler (A : Type) : Type := World → (Response + A) * World.

Definition ret {A} (a : A) : Handler A := fun w => (inr a, w).

Definition bind {A B} (m : Handler A) (k : A → Handler B) : Handler B :=
  fun w => match m w with
           | (inl r, w') => (inl r, w')
           | (inr a, w') => k a w'
           end.

Definition reply {A} (r : Response) : Handler A := fun w => (inl r, w).

Definition lift {A} (v : Response + A) : Handler A := fun w => (v, w).

Definition run (h : Handler Response) (w : World) : Response * World :=
  match h w with
  | (inl r, w') => (r, w')
  | (inr r, w') => (r, w')
  end.

Definition doGetPage (fault : error) (name : string)
  : Handler (option Page * error) :=
  fun w => (inr (storeGetPage fault (store w) name),
            mkWorld (store w) (rng w) (calls w ++ [CallGet name])).

Definition doGetPageUsingId (fault : error) (id : string)
  : Handler (option Page * error) :=
  fun w => (inr (storeGetPageUsingId fault (store w) id),
            mkWorld (store w) (rng w) (calls w ++ [CallGetById id])).

Definition doPutPage (fault : error) (page : Page) : Handler error :=
  fun w => let '(db, err) := storePutPage fault (store w) page in
           (inr err, mkWorld db (rng w) (calls w ++ [CallPut page])).

Definition doRandStr (n : Z) : Handler string :=
  fun w => let '(s, g) := randStr n (rng w) in
           (inr s, mkWorld (store w) g (calls w)).
End Handlers.

Notation "x <- m ;; k" := (bind m (fun x => k))
  (at level 100, m at next level, right associativity).

(** ** The handlers of handlers.go *)

Section Api.
Context `{E : Externals}.

(** The validation block, which [apiPut] (lines 68-107) and [apiPost]
    (lines 186-225) both contain verbatim.  [inl r]: the error [r] was
    sent and the handler returned; [inr (slug, website)]: the values of
    the two variables the block assigns. *)
Definition validation (title website twitter github facebook instagram : string)
  : Response + (string * string) :=
  let slug := Slugify title in
  if isEmptyString slug then inl (SendError "Provide a title") else
  match (if negb (isEmptyString website) then
           match ParseRequestURI website with
           | None => inl (SendError "Invalid website URL")
           | Some u => inr (URLString u)
           end
         else inr website) with
  | inl r => inl r
  | inr website =>
      if negb (isEmptyString twitter)
         && negb (isValidTwitterHandle MapUnicodeToLower twitter) then
        inl (SendError "Invalid Twitter Handle. Only letters, numbers, and underscore allowed.")
      else if negb (isEmptyString github)
              && negb (isValidGitHubHandle MapUnicodeToLower github) then
        inl (SendError "Invalid GitHub Handle. Only letters, numbers, and dash allowed.")
      else if negb (isEmptyString facebook)
              && negb (isValidFacebookHandle MapUnicodeToLower facebook) then
        inl (SendError "Invalid Facebook Handle. Only letters, numbers, and dot allowed.")
      else if negb (isEmptyString instagram)
              && negb (isValidInstagramHandle MapUnicodeToLower instagram) then
        inl (SendError "Invalid Instagram Handle. Only letters and numbers allowed.")
      else inr (slug, website)
  end.

(** The [Payload] map both handlers answer with. *)
Definition idNamePayload (page : Page) : gmap string string :=
  <["name" := Name page]> (<["id" := Id page]> ∅).

(** [apiPut]: create a page.  The [fmt.Printf] of the answer to the
    standard output is not modelled. *)
Definition apiPut (r : Input) : Handler Response :=
  let title := FormValue r "title" in
  let content := FormValue r "content" in
  let author := FormValue r "author" in
  let website := FormValue r "website" in
  let twitter := FormValue r "twitter" in
  let github := FormValue r "github" in
  let facebook := FormValue r "facebook" in
  let instagram := FormValue r "instagram" in
  v <- lift (validation title website twitter github facebook instagram) ;;
  let slug := fst v in
  let website := snd v in
  let now := now r in
  id <- doRandStr 16 ;;
  suffix <- doRandStr 8 ;;
  let page := mkPage id ((slug +:+ "-") +:+ suffix) title author website
                     content twitter facebook github instagram "" now now in
  let html := MarkdownCommon (Content page) in
  let page := setHtml page html in
  errIns <- doPutPage (putFault r) page ;;
  match errIns with
  | Some e => reply (HttpError e StatusInternalServerError)
  | None => reply (SendJson true "Saved" (PayloadMap (idNamePayload page)))
  end.

(** [apiPost]: update a page.  The log lines are not modelled. *)
Definition apiPost (r : Input) : Handler Response :=
  let id := FormValue r "id" in
  let name := FormValue r "name" in
  let title := FormValue r "title" in
  let content := FormValue r "content" in
  let author := FormValue r "author" in
  let website := FormValue r "website" in
  let twitter := FormValue r "twitter" in
  let github := FormValue r "github" in
  let facebook := FormValue r "facebook" in
  let instagram := FormValue r "instagram" in
  got <- doGetPage (getFault r) name ;;
  match snd got with
  | Some _ => reply (SendError "Internal Error. Please try again later.")
  | None =>
      match fst got with
      | None => reply (SendError "This page name does not exist.")
      | Some existPage =>
          if negb (String.eqb (Id existPage) id) then
            reply (SendError "Permission denied.")
          else
            v <- lift (validation title website twitter github facebook instagram) ;;
            let website := snd v in
            let now := now r in
            let existPage :=
              mkPage (Id existPage) (Name existPage) title author website
                     content twitter facebook github instagram
                     (Html existPage) (Inserted existPage) now in
            let html := MarkdownCommon content in
            let existPage := setHtml existPage html in
            errIns <- doPutPage (putFault r) existPage ;;
            match errIns with
            | Some e => reply (HttpError e StatusInternalServerError)
            | None =>
                reply (SendJson true "Saved" (PayloadMap (idNamePayload existPage)))
            end
      end
  end.

(** [apiGet]: look a page up by its id. *)
Definition apiGet (r : Input) : Handler Response :=
  let id := FormValue r "id" in
  got <- doGetPageUsingId (getFault r) id ;;
  match snd got with
  | Some _ => reply (SendError "Internal Error. Please try again later.")
  | None =>
      match fst got with
      | None => reply (SendError "This page Id does not exist.")
      | Some page => reply (SendJson true "Saved" (PayloadPage page))
      end
  end.

(** The writes among the store calls of a log. *)
Definition putsOf (cs : list StoreCall) : list StoreCall := filter isPut cs.

(** The answer says [ok: true]. *)
Definition isOk (resp : Response) : bool :=
  match resp with
  | SendJson ok _ _ => ok
  | _ => false
  end.

(** The record [apiPut] hands to the store, from the two variables the
    validation block assigns and the state of the random source. *)
Definition createdPage (r : Input) (g : Rng) (slug website : string) : Page :=
  let id := fst (randStr 16 g) in
  let suffix := fst (randStr 8 (snd (randStr 16 g))) in
  mkPage id ((slug +:+ "-") +:+ suffix) (FormValue r "title")
         (FormValue r "author") website (FormValue r "content")
         (FormValue r "twitter") (FormValue r "facebook")
         (FormValue r "github") (FormValue r "instagram")
         (MarkdownCommon (FormValue r "content")) (now r) (now r).

(** The record [apiPost] hands to the store. *)
Definition updatedPage (r : Input) (existPage : Page) (website : string) : Page :=
  mkPage (Id existPage) (Name existPage) (FormValue r "title")
         (FormValue r "author") website (FormValue r "content")
         (FormValue r "twitter") (FormValue r "facebook")
         (FormValue r "github") (FormValue r "instagram")
         (MarkdownCommon (FormValue r "content")) (Inserted existPage) (now r).

(** What the website check leaves in a record: the empty string it was
    given, or the printed form of the URL it parsed. *)
Definition websiteChecked (r : Input) (page : Page) : Prop :=
  (FormValue r "website" = "" → Website page = "")
  ∧ (∀ u, FormValue r "website" ≠ "" →
          ParseRequestURI (FormValue r "website") = Some u →
          Website page = URLString u).

(** The block's arguments, as both handlers read them from the form. *)
Definition validationOf (r : Input) : Response + (string * string) :=
  validation (FormValue r "title") (FormValue r "website")
             (FormValue r "twitter") (FormValue r "github")
             (FormValue r "facebook") (FormValue r "instagram").
End Api.

(** ** An executable instance of the collaborators

    Used to run the handlers on concrete requests.  The slug generator
    lower-cases, keeps letters and digits, turns every other run of bytes
    into one dash and trims the dashes; the URL parser accepts a string
    that starts with a slash or with an http or https scheme and prints it
    back unchanged: on the titles and websites of the requests below they
    answer as the Go functions do.  The renderer and the random source are
    placeholders. *)

Module Demo.

Definition isSlugByte (c : ascii) : bool := byteIn "a" "z" c || byteIn "0" "9" c.

Fixpoint slugBytes (s : string) (lastInvalid : bool) : string :=
  match s with
  | EmptyString => EmptyString
  | String c s' =>
      if isSlugByte c then String c (slugBytes s' false)
      else if lastInvalid then slugBytes s' true
      else String "-" (slugBytes s' true)
  end.

Definition slugify (title : string) : string :=
  Trim (slugBytes (mapBytes lowerByte title) false) "-".

Fixpoint hasPrefix (p s : string) : bool :=
  match p, s with
  | EmptyString, _ => true
  | String a p', String b s' => Ascii.eqb a b && hasPrefix p' s'
  | _, _ => false
  end.

Definition parseRequestURI (rawurl : string) : option string :=
  if hasPrefix "/" rawurl || hasPrefix "http://" rawurl
     || hasPrefix "https://" rawurl
  then Some rawurl else None.

(** A stand-in renderer: one paragraph around the source. *)
Definition markdown (src : string) : string :=
  if isEmptyString src then "" else ("<p>" +:+ src) +:+ "</p>".

Fixpoint replicate (n : nat) (c : ascii) : string :=
  match n with O => EmptyString | S n' => String c (replicate n' c) end.

(** A counter in place of the random source: the k-th draw is the k-th
    letter of the alphabet, repeated. *)
Definition drawStr (n : Z) (k : nat) : string * nat :=
  (replicate (Z.to_nat n) (ascii_of_nat (97 + k mod 26)), S k).

#[export] Instance externals : Externals := {|
  MapUnicodeToLower := fun s => s;
  Slugify := slugify;
  URL := string;
  ParseRequestURI := parseRequestURI;
  URLString := fun u => u;
  MarkdownCommon := markdown;
  Rng := nat;
  randStr := drawStr
|}.

Definition world0 : World := mkWorld emptyDB 0%nat [].

Definition request (fields : list (string * string)) (now : Z) : Input :=
  mkInput (list_to_map fields) now None None.

Definition createHello : Input :=
  request [("title", "Hello, World!"); ("content", "hi"); ("author", "Jo");
           ("website", "https://example.com"); ("twitter", "john_doe")] 100.

(** The world after [createHello]: one page, with the id aaaaaaaaaaaaaaaa
    and the name hello-world-bbbbbbbb. *)
Definition world1 : World := snd (run (apiPut createHello) world0).

Definition updateHello : Input :=
  request [("id", "aaaaaaaaaaaaaaaa"); ("name", "hello-world-bbbbbbbb");
           ("title", "Hello again"); ("content", "bye"); ("author", "Jo")] 200.

Definition updateSite : Input :=
  request [("id", "aaaaaaaaaaaaaaaa"); ("name", "hello-world-bbbbbbbb");
           ("title", "Hello again"); ("content", "bye");
           ("website", "/about")] 200.

Definition updateWrongId : Input :=
  request [("id", "guess"); ("name", "hello-world-bbbbbbbb");
           ("title", "!!!"); ("content", "mine now")] 200.

Definition updateNoTitle : Input :=
  request [("id", "aaaaaaaaaaaaaaaa"); ("name", "hello-world-bbbbbbbb");
           ("title", "!!!"); ("content", "bye")] 200.

Definition updateUnknown : Input :=
  request [("id", "aaaaaaaaaaaaaaaa"); ("name", "no-such-page");
           ("title", "")] 200.

(** The page [createHello] stores. *)
Definition helloPage : Page :=
  mkPage "aaaaaaaaaaaaaaaa" "hello-world-bbbbbbbb" "Hello, World!" "Jo"
         "https://example.com" "hi" "john_doe" "" "" "" "<p>hi</p>" 100%Z 100%Z.

Definition createAgent : Input :=
  request [("title", "Hello"); ("content", "hi"); ("twitter", "agent007")] 100.

Definition createNoTitleBadSite : Input :=
  request [("title", ""); ("content", "hi"); ("website", "not a url")] 100.

Definition createBadSite : Input :=
  request [("title", "Hello"); ("content", "hi"); ("website", "not a url")] 100.

End Demo.

(** The alphabets as section 4.1 of the specification words them. *)
Module SpecAlphabet.
Definition letterOrDigit (c : ascii) : bool := byteIn "a" "z" c || byteIn "0" "9" c.
Definition twitter (c : ascii) : bool := letterOrDigit c || Ascii.eqb c "_".
Definition github (c : ascii) : bool := letterOrDigit c || Ascii.eqb c "-".
Definition facebook (c : ascii) : bool := letterOrDigit c || Ascii.eqb c ".".
Definition instagram (c : ascii) : bool := letterOrDigit c.
End SpecAlphabet.

(** An absolute URL, in the words of section 4.1 of the specification,
    begins with a scheme: a letter, then letters, digits, plus, dash or
    dot, and then a colon, as RFC 3986 writes an absolute URI. *)
Module SpecURL.
Definition schemeStart (c : ascii) : bool := byteIn "a" "z" c || byteIn "A" "Z" c.

Definition schemeByte (c : ascii) : bool :=
  schemeStart c || byteIn "0" "9" c
  || Ascii.eqb c "+" || Ascii.eqb c "-" || Ascii.eqb c ".".

Fixpoint schemeEnds (s : string) : bool :=
  match s with
  | EmptyString => false
  | String c s' =>
      if Ascii.eqb c ":" then true
      else if schemeByte c then schemeEnds s' else false
  end.

Definition hasScheme (s : string) : bool :=
  match s with
  | EmptyString => false
  | String c s' => schemeStart c && schemeEnds s'
  end.
End SpecURL.

(** A creation whose website is an absolute path, for the instance
    [Demo.externals]; Go's [url.ParseRequestURI] takes an absolute URI or
    an absolute path, and so does the stand-in. *)
Module DemoSites.
Definition createAbout : Input :=
  Demo.request [("title", "About"); ("content", "hi"); ("website", "/about")] 100.
End DemoSites.

(** ** Routing, page views and the sitemap *)

(** An HTTP request: its method, [r.URL.Path], and what [r.FormValue] and
    the environment supply. *)
Record Request : Type := mkRequest {
  Method : string;
  Path : string;
  values : Input
}.

(** What the routing handlers leave on the [http.ResponseWriter]: the
    answer of an /api handler or an [http.Error]; the answer of
    [http.NotFoundHandler]; nothing at all; a call of [render] with the
    name of the template and the fields of its data; a call of
    [http.ServeFile]; the plain text of the sitemap; or a run-time panic
    of the slice expression in [servePage]. *)
Inductive Reply : Type :=
| Wrote (resp : Response)
| NotFound
| Nothing
| Render (templateName Layout : string) (page : option Page)
| ServeFile (name : string)
| Plain (body : string)
| Panic.

Definition newline : string := String "010" "".

(** The order of the keys of a bolt bucket: byte-wise, as [bytes.Compare]. *)
Definition keyLe (a b : string * Page) : Prop := String.le a.1 b.1.

#[global] Instance keyLe_dec : RelDecision keyLe :=
  fun a b => String.le_dec a.1 b.1.

(** The records of the by-name bucket in the order of their keys. *)
Definition scanOrder (db : DB) : list (string * Page) :=
  merge_sort keyLe (map_to_list (byName db)).

(** Visit the records in turn until a visit returns an error. *)
Fixpoint visitAll {S : Type} (fn : string → Page → S → S * error)
  (kvs : list (string * Page)) (s : S) : S * error :=
  match kvs with
  | [] => (s, None)
  | (k, v) :: kvs' =>
      match fn k v s with
      | (s', Some e) => (s', Some e)
      | (s', None) => visitAll fn kvs' s'
      end
  end.

(** Modelled from the spec: [storeIteratePages] is declared outside
    handlers.go.  Section 4.2, IterateAll: the by-name bucket is scanned in
    ascending order of the names, the visit is called once per record, and
    the first error a visit returns stops the scan and is returned.  A
    storage fault ([fault]) fails the scan before the first visit.  The
    state [S] is what the visit writes to. *)
Definition storeIteratePages {S : Type} (fault : error) (db : DB)
  (fn : string → Page → S → S * error) (s : S) : S * error :=
  match fault with
  | Some e => (s, Some e)
  | None => visitAll fn (scanOrder db) s
  end.

Section Routes.
Context `{E : Externals}.

Definition wrote (p : Response * World) : Reply * World := (Wrote p.1, p.2).

(** [apiHandler]: the three /api handlers by method. *)
Definition apiHandler (r : Request) (w : World) : Reply * World :=
  let path := Path r in
  if negb (String.eqb path "/api") then (NotFound, w)
  else if String.eqb (Method r) "PUT" then wrote (run (apiPut (values r)) w)
  else if String.eqb (Method r) "POST" then wrote (run (apiPost (values r)) w)
  else if String.eqb (Method r) "GET" then wrote (run (apiGet (values r)) w)
  else (Nothing, w).

(** [servePage]: [r.URL.Path[1:]] panics on the empty path. *)
Definition servePage (r : Request) (w : World) : Reply * World :=
  match Path r with
  | EmptyString => (Panic, w)
  | String _ name =>
      match doGetPage (getFault (values r)) name w with
      | (inl resp, w') => (Wrote resp, w')
      | (inr (_, Some e), w') => (Wrote (HttpError e StatusInternalServerError), w')
      | (inr (None, None), w') => (NotFound, w')
      | (inr (Some page, None), w') => (Render "page.html" "page" (Some page), w')
      end
  end.

(** The global [baseUrl], read from the environment when the program
    starts. *)
Variable baseUrl : string.

(** What [fmt.Fprintf(w, format)] writes, without operands, for a format
    that holds a percent sign; the verbs are interpreted by package fmt. *)
Variable FprintfVerbs : string → string.

(** [fmt.Fprintf(w, format)] without operands: a format without a percent
    sign is written as it is. *)
Definition Fprintf0 (format : string) : string :=
  if contains format "%" then FprintfVerbs format else format.

(** The visit of [sitemap]: [fmt.Fprintf(w, "%s/%s\n", baseUrl, string(k))],
    and no error. *)
Definition sitemapVisit (k : string) (v : Page) (out : string) : string * error :=
  (out +:+ ((baseUrl +:+ "/") +:+ k) +:+ newline, None).

(** The lines of the sitemap for a list of names. *)
Definition sitemapLines (names : list string) : string :=
  foldr (fun k rest => (((baseUrl +:+ "/") +:+ k) +:+ newline) +:+ rest) "" names.

(** [sitemap]: the text written to [w]; an error of the scan is only
    logged.  The scan is not among the calls the log of the world
    records. *)
Definition sitemap (r : Request) (w : World) : Reply * World :=
  let out := Fprintf0 (baseUrl +:+ ("/" +:+ newline)) in
  let '(out, err) :=
    storeIteratePages (getFault (values r)) (store w) sitemapVisit out in
  (Plain out, w).

(** [homeHandler]: the routes of the site. *)
Definition homeHandler (r : Request) (w : World) : Reply * World :=
  let path := Path r in
  if String.eqb path "/" then (Render "home.html" "home" None, w)
  else if String.eqb path "/favicon.ico" then (ServeFile "static/favicon.ico", w)
  else if String.eqb path "/robots.txt" then (ServeFile "static/robots.txt", w)
  else if String.eqb path "/sitemap.txt" then sitemap r w
  else servePage r w.

(** ** Predicates on requests, pages and databases *)

(** A handle the validation block lets through: empty, or valid. *)
Definition handleOk (valid : string → bool) (handle : string) : bool :=
  isEmptyString handle || valid handle.

(** A website the validation block lets through: empty, or parsed. *)
Definition websiteOk (website : string) : Prop :=
  website = "" ∨ is_Some (ParseRequestURI website).

(** What the validation block has checked of a page that is stored, and
    what the handlers have derived. *)
Definition pageChecked (page : Page) : Prop :=
  Slugify (Title page) ≠ ""
  ∧ (Website page = "" ∨ ∃ u, Website page = URLString u)
  ∧ handleOk (isValidTwitterHandle MapUnicodeToLower) (Twitter page) = true
  ∧ handleOk (isValidGitHubHandle MapUnicodeToLower) (GitHub page) = true
  ∧ handleOk (isValidFacebookHandle MapUnicodeToLower) (Facebook page) = true
  ∧ handleOk (isValidInstagramHandle MapUnicodeToLower) (Instagram page) = true
  ∧ Html page = MarkdownCommon (Content page).

Definition storeChecked (db : DB) : Prop :=
  ∀ (name : string) (page : Page), byName db !! name = Some page → pageChecked page.

(** Every id of the by-id bucket leads to a record. *)
Definition idsResolve (db : DB) : Prop :=
  ∀ (id name : string), byId db !! id = Some name → is_Some (byName db !! name).

(** The name and the id [apiPut] gives a page, from the form and the
    random source. *)
Definition newId (w : World) : string := fst (randStr 16 (rng w)).

Definition newName (r : Input) (w : World) : string :=
  (Slugify (FormValue r "title") +:+ "-")
  +:+ fst (randStr 8 (snd (randStr 16 (rng w)))).
End Routes.

(** Letters of either case, as the validators see them after
    [strings.ToLower]. *)
Definition isLetter (c : ascii) : bool := byteIn "a" "z" c || byteIn "A" "Z" c.

(** Requests to the routing handlers, for the instance [Demo.externals]. *)
Module DemoRoutes.

Definition get (path : string) : Request :=
  mkRequest "GET" path (Demo.request [] 300).

Definition lookupHello : Input :=
  Demo.request [("id", "aaaaaaaaaaaaaaaa")] 300.

Definition deleteApi : Request :=
  mkRequest "DELETE" "/api" Demo.updateHello.

Definition putApi : Request := mkRequest "PUT" "/api" Demo.createHello.

Definition createAgain : Input :=
  Demo.request [("title", "Second page"); ("content", "more");
                ("github", "my-repo")] 150.

End DemoRoutes.

(** * Properties *)

(** ** Trimming and the validators *)

Section TrimFacts.
Implicit Types (s cutset : string) (c : ascii) (p : ascii → bool).

Lemma contains_app cutset1 cutset2 c :
  contains (cutset1 +:+ cutset2) c = contains cutset1 c || contains cutset2 c.
Proof.
  induction cutset1 as [|d cutset1 IH]; simpl; [done|].
  rewrite IH. by rewrite orb_assoc.
Qed.

Lemma allBytes_rev_app p s1 s2 :
  allBytes p (String.rev_app s1 s2) = allBytes p s1 && allBytes p s2.
Proof.
  revert s2. induction s1 as [|c s1 IH]; intros s2; simpl; [done|].
  rewrite IH. simpl. destruct (p c), (allBytes p s1), (allBytes p s2); done.
Qed.

Lemma allBytes_rev p s : allBytes p (String.rev s) = allBytes p s.
Proof. unfold String.rev. rewrite allBytes_rev_app. simpl. apply andb_true_r. Qed.

Lemma allBytes_impl p q s :
  (∀ c, p c = true → q c = true) → allBytes p s = true → allBytes q s = true.
Proof.
  intros Hpq. induction s as [|c s IH]; simpl; [done|].
  intros [Hc Hs]%andb_true_iff. rewrite (Hpq _ Hc). by apply IH.
Qed.

Lemma allBytes_ext p q s : (∀ c, p c = q c) → allBytes p s = allBytes q s.
Proof.
  intros Hpq. induction s as [|c s IH]; simpl; [done|]. by rewrite Hpq, IH.
Qed.

Lemma trimLeftASCII_all s cutset :
  allBytes (contains cutset) s = true → trimLeftASCII s cutset = "".
Proof.
  induction s as [|c s IH]; simpl; [done|].
  intros [Hc Hs]%andb_true_iff. rewrite Hc. by apply IH.
Qed.

(** What is left after trimming on the left starts, if it is not empty,
    with a byte outside the cutset. *)
Lemma trimLeftASCII_kept s cutset :
  allBytes (contains cutset) (trimLeftASCII s cutset) = true →
  allBytes (contains cutset) s = true.
Proof.
  induction s as [|c s IH]; simpl; [done|].
  destruct (contains cutset c) eqn:Hc; simpl.
  - exact IH.
  - by rewrite Hc.
Qed.

Lemma isEmptyString_true s : isEmptyString s = true ↔ s = "".
Proof. destruct s; simpl; split; done. Qed.

(** [strings.Trim(s, cutset) == ""] holds exactly when every byte of [s]
    is in the cutset. *)
Lemma Trim_empty s cutset :
  isEmptyString (Trim s cutset) = allBytes (contains cutset) s.
Proof.
  destruct s as [|c s]; [done|].
  destruct cutset as [|d cutset]; [done|].
  unfold Trim. set (t := String c s). set (cs := String d cutset).
  destruct (allBytes (contains cs) t) eqn:Hall.
  - apply isEmptyString_true. unfold trimRightASCII.
    rewrite (trimLeftASCII_all (String.rev t)); [done|].
    by rewrite allBytes_rev.
  - destruct (isEmptyString (trimLeftASCII (trimRightASCII t cs) cs)) eqn:Hemp; [|done].
    apply isEmptyString_true in Hemp.
    assert (allBytes (contains cs) (trimRightASCII t cs) = true) as H1.
    { apply trimLeftASCII_kept. by rewrite Hemp. }
    unfold trimRightASCII in H1. rewrite allBytes_rev in H1.
    apply trimLeftASCII_kept in H1. rewrite allBytes_rev in H1. congruence.
Qed.
End TrimFacts.

(** The cutsets, byte by byte. *)
Lemma contains_chars c : contains chars c = byteIn "a" "z" c.
Proof. destruct c as [[] [] [] [] [] [] [] []]; vm_compute; reflexivity. Qed.

Lemma contains_twitterChars c :
  contains twitterChars c = byteIn "a" "z" c || Ascii.eqb c "_".
Proof. unfold twitterChars. rewrite contains_app, contains_chars. simpl. by rewrite orb_false_r. Qed.

Lemma contains_githubChars c :
  contains githubChars c = byteIn "a" "z" c || Ascii.eqb c "-".
Proof. unfold githubChars. rewrite contains_app, contains_chars. simpl. by rewrite orb_false_r. Qed.

Lemma contains_facebookChars c :
  contains facebookChars c = byteIn "a" "z" c || Ascii.eqb c ".".
Proof. unfold facebookChars. rewrite contains_app, contains_chars. simpl. by rewrite orb_false_r. Qed.

Section ValidatorFacts.
Variable M : string → string.

(** Each validator accepts a handle exactly when every byte of the
    lower-cased handle is in its cutset: lower-case letters, and the one
    extra symbol; a digit is in none of them. *)
Lemma isValidTwitterHandle_all handle :
  isValidTwitterHandle M handle
  = allBytes (fun c => byteIn "a" "z" c || Ascii.eqb c "_") (ToLower M handle).
Proof.
  unfold isValidTwitterHandle. rewrite Trim_empty.
  apply allBytes_ext, contains_twitterChars.
Qed.

Lemma isValidGitHubHandle_all handle :
  isValidGitHubHandle M handle
  = allBytes (fun c => byteIn "a" "z" c || Ascii.eqb c "-") (ToLower M handle).
Proof.
  unfold isValidGitHubHandle. rewrite Trim_empty.
  apply allBytes_ext, contains_githubChars.
Qed.

Lemma isValidFacebookHandle_all handle :
  isValidFacebookHandle M handle
  = allBytes (fun c => byteIn "a" "z" c || Ascii.eqb c ".") (ToLower M handle).
Proof.
  unfold isValidFacebookHandle. rewrite Trim_empty.
  apply allBytes_ext, contains_facebookChars.
Qed.

Lemma isValidInstagramHandle_all handle :
  isValidInstagramHandle M handle
  = allBytes (byteIn "a" "z") (ToLower M handle).
Proof.
  unfold isValidInstagramHandle, instagramChars. rewrite Trim_empty.
  apply allBytes_ext, contains_chars.
Qed.

(** A handle a validator accepts is made of bytes of the alphabet the
    specification gives for it; the converse fails on digits. *)
Lemma accepted_within_spec_alphabet handle :
  (isValidTwitterHandle M handle = true →
     allBytes SpecAlphabet.twitter (ToLower M handle) = true)
  ∧ (isValidGitHubHandle M handle = true →
     allBytes SpecAlphabet.github (ToLower M handle) = true)
  ∧ (isValidFacebookHandle M handle = true →
     allBytes SpecAlphabet.facebook (ToLower M handle) = true)
  ∧ (isValidInstagramHandle M handle = true →
     allBytes SpecAlphabet.instagram (ToLower M handle) = true).
Proof.
  rewrite isValidInstagramHandle_all, isValidTwitterHandle_all,
    isValidGitHubHandle_all, isValidFacebookHandle_all.
  repeat split; apply allBytes_impl; intros c;
    unfold SpecAlphabet.twitter, SpecAlphabet.github, SpecAlphabet.facebook,
      SpecAlphabet.instagram, SpecAlphabet.letterOrDigit;
    destruct (byteIn "a" "z" c); simpl; try done;
    intros ->; by rewrite orb_true_r.
Qed.

(** The handles the specification names are judged as it says. *)
Lemma named_handles :
  isValidTwitterHandle M "john_doe" = true
  ∧ isValidTwitterHandle M "john doe" = false
  ∧ isValidGitHubHandle M "my-repo" = true
  ∧ isValidGitHubHandle M "my.repo" = false.
Proof. repeat split; vm_compute; reflexivity. Qed.

(** C1: the claim has a handle accepted exactly when every byte of its
    lower-cased form is a lower-case letter, a digit or the validator's
    extra symbol.  The handle agent007 is made of such bytes for every
    one of the four alphabets, and each of the four validators rejects
    it: the cutsets hold no digit. *)
Theorem digits_rejected :
  allBytes SpecAlphabet.twitter (ToLower M "agent007") = true
  ∧ allBytes SpecAlphabet.github (ToLower M "agent007") = true
  ∧ allBytes SpecAlphabet.facebook (ToLower M "agent007") = true
  ∧ allBytes SpecAlphabet.instagram (ToLower M "agent007") = true
  ∧ isValidTwitterHandle M "agent007" = false
  ∧ isValidGitHubHandle M "agent007" = false
  ∧ isValidFacebookHandle M "agent007" = false
  ∧ isValidInstagramHandle M "agent007" = false.
Proof. repeat split; vm_compute; reflexivity. Qed.

(** C10: a handle the instagram validator accepts is accepted by the
    twitter, the github and the facebook validator. *)
Theorem instagram_handle_valid_everywhere handle :
  isValidInstagramHandle M handle = true →
  isValidTwitterHandle M handle = true
  ∧ isValidGitHubHandle M handle = true
  ∧ isValidFacebookHandle M handle = true.
Proof.
  rewrite isValidInstagramHandle_all, isValidTwitterHandle_all,
    isValidGitHubHandle_all, isValidFacebookHandle_all.
  intros H. repeat split; revert H; apply allBytes_impl;
    intros c ->; reflexivity.
Qed.
End ValidatorFacts.

Lemma instagram_handle_valid_everywhere_witness :
  isValidTwitterHandle (fun s => s) "JohnDoe" = true
  ∧ isValidGitHubHandle (fun s => s) "JohnDoe" = true
  ∧ isValidFacebookHandle (fun s => s) "JohnDoe" = true.
Proof.
  apply (instagram_handle_valid_everywhere (fun s => s) "JohnDoe").
  vm_compute. reflexivity.
Defined.

(** ** The store *)

Lemma wfDB_empty : wfDB emptyDB.
Proof. intros name page. simpl. by rewrite lookup_empty. Qed.

Lemma wfDB_put fault db page : wfDB db → wfDB (fst (storePutPage fault db page)).
Proof.
  intros Hwf. destruct fault as [e|]; simpl; [done|].
  intros name q. simpl. rewrite lookup_insert.
  case_decide as Hname; [|by apply Hwf].
  intros [= <-]. done.
Qed.

(** A committed record is read back as it was written. *)
Lemma storeGetPage_put db page :
  storeGetPage None (fst (storePutPage None db page)) (Name page) = (Some page, None).
Proof. simpl. unfold storeGetPage. simpl. by rewrite lookup_insert_eq. Qed.

Lemma storeGetPage_found fault db name page :
  storeGetPage fault db name = (Some page, None) → byName db !! name = Some page.
Proof. unfold storeGetPage. destruct fault; [done|]. by intros [= ->]. Qed.

(** ** The validation block *)

Section ValidationFacts.
Context `{E : Externals}.
Implicit Types (r : Input) (slug website : string).

Lemma validation_no_title r :
  Slugify (FormValue r "title") = "" →
  validationOf r = inl (SendError "Provide a title").
Proof. unfold validationOf, validation. by intros ->. Qed.

Lemma validation_bad_website r :
  Slugify (FormValue r "title") ≠ "" →
  FormValue r "website" ≠ "" →
  ParseRequestURI (FormValue r "website") = None →
  validationOf r = inl (SendError "Invalid website URL").
Proof.
  unfold validationOf, validation. intros Hslug Hsite ->.
  destruct (Slugify (FormValue r "title")); [done|].
  destruct (FormValue r "website"); done.
Qed.

(** When the block lets the request through, the slug is the slug of the
    title and is not empty, and the website is the empty string it was or
    the printed form of the parsed URL. *)
Lemma validation_passed r slug website :
  validationOf r = inr (slug, website) →
  slug = Slugify (FormValue r "title") ∧ slug ≠ ""
  ∧ (FormValue r "website" = "" → website = "")
  ∧ (∀ u, ParseRequestURI (FormValue r "website") = Some u →
          FormValue r "website" ≠ "" → website = URLString u).
Proof.
  unfold validationOf, validation.
  destruct (Slugify (FormValue r "title")) as [|c slug0] eqn:Hslug; [done|].
  simpl.
  destruct (FormValue r "website") as [|d site] eqn:Hsite; simpl.
  - repeat case_match; try done.
    intros [= <- <-]. repeat split; try done.
  - destruct (ParseRequestURI (String d site)) as [u|]; [|done].
    repeat case_match; try done.
    intros [= <- <-]. repeat split; try done.
    intros u' [= <-] _. done.
Qed.

(** The block only ever sends errors. *)
Lemma validation_error_not_ok r e : validationOf r = inl e → isOk e = false.
Proof.
  unfold validationOf, validation.
  destruct (isEmptyString (Slugify _)); [by intros [= <-]|].
  destruct (negb (isEmptyString (FormValue r "website"))).
  - destruct (ParseRequestURI _); [|by intros [= <-]].
    repeat case_match; by intros [= <-].
  - repeat case_match; by intros [= <-].
Qed.

(** The block sends the website error only for a website that is not
    empty and that [url.ParseRequestURI] turns down. *)
Lemma validation_website_error r :
  validationOf r = inl (SendError "Invalid website URL") →
  FormValue r "website" ≠ "" ∧ ParseRequestURI (FormValue r "website") = None.
Proof.
  unfold validationOf, validation.
  destruct (Slugify (FormValue r "title")) as [|c slug]; simpl; [done|].
  destruct (FormValue r "website") as [|d site]; simpl.
  - repeat case_match; done.
  - destruct (ParseRequestURI (String d site)) as [u|]; [|done].
    repeat case_match; done.
Qed.

Lemma validation_empty_website r :
  FormValue r "website" = "" →
  validationOf r ≠ inl (SendError "Invalid website URL").
Proof.
  unfold validationOf, validation. intros ->. simpl.
  repeat case_match; done.
Qed.
End ValidationFacts.

(** ** The runs of the handlers, branch by branch *)

Section RunFacts.
Context `{E : Externals}.
Implicit Types (r : Input) (w : World) (slug website : string).

Lemma apiPut_invalid r w e :
  validationOf r = inl e → run (apiPut r) w = (e, w).
Proof.
  unfold validationOf. intros Hv. unfold apiPut, run, bind, lift.
  by rewrite Hv.
Qed.

Lemma apiPut_valid r w slug website :
  validationOf r = inr (slug, website) →
  run (apiPut r) w =
    let page := createdPage r (rng w) slug website in
    let g := snd (randStr 8 (snd (randStr 16 (rng w)))) in
    match putFault r with
    | Some e => (HttpError e StatusInternalServerError,
                 mkWorld (store w) g (calls w ++ [CallPut page]))
    | None => (SendJson true "Saved" (PayloadMap (idNamePayload page)),
               mkWorld (fst (storePutPage None (store w) page)) g
                       (calls w ++ [CallPut page]))
    end.
Proof.
  unfold validationOf. intros Hv.
  unfold apiPut, run, bind, lift, doRandStr, doPutPage, createdPage.
  rewrite Hv. simpl.
  destruct (randStr 16 (rng w)) as [id g1]. simpl.
  destruct (randStr 8 g1) as [suffix g2]. simpl.
  destruct (putFault r); reflexivity.
Qed.

Lemma apiPost_get_failed r w found e :
  storeGetPage (getFault r) (store w) (FormValue r "name") = (found, Some e) →
  run (apiPost r) w =
    (SendError "Internal Error. Please try again later.",
     mkWorld (store w) (rng w) (calls w ++ [CallGet (FormValue r "name")])).
Proof.
  intros Hget. unfold apiPost, run, bind, doGetPage. by rewrite Hget.
Qed.

Lemma apiPost_missing r w :
  storeGetPage (getFault r) (store w) (FormValue r "name") = (None, None) →
  run (apiPost r) w =
    (SendError "This page name does not exist.",
     mkWorld (store w) (rng w) (calls w ++ [CallGet (FormValue r "name")])).
Proof.
  intros Hget. unfold apiPost, run, bind, doGetPage. by rewrite Hget.
Qed.

Lemma apiPost_denied r w existPage :
  storeGetPage (getFault r) (store w) (FormValue r "name") = (Some existPage, None) →
  Id existPage ≠ FormValue r "id" →
  run (apiPost r) w =
    (SendError "Permission denied.",
     mkWorld (store w) (rng w) (calls w ++ [CallGet (FormValue r "name")])).
Proof.
  intros Hget Hid%String.eqb_neq. unfold apiPost, run, bind, doGetPage.
  rewrite Hget. simpl. by rewrite Hid.
Qed.

Lemma apiPost_invalid r w existPage e :
  storeGetPage (getFault r) (store w) (FormValue r "name") = (Some existPage, None) →
  Id existPage = FormValue r "id" →
  validationOf r = inl e →
  run (apiPost r) w =
    (e, mkWorld (store w) (rng w) (calls w ++ [CallGet (FormValue r "name")])).
Proof.
  unfold validationOf. intros Hget Hid%String.eqb_eq Hv.
  unfold apiPost, run, bind, lift, doGetPage.
  rewrite Hget. simpl. rewrite Hid. simpl. by rewrite Hv.
Qed.

Lemma apiPost_valid r w existPage slug website :
  storeGetPage (getFault r) (store w) (FormValue r "name") = (Some existPage, None) →
  Id existPage = FormValue r "id" →
  validationOf r = inr (slug, website) →
  run (apiPost r) w =
    let page := updatedPage r existPage website in
    let cs := calls w ++ [CallGet (FormValue r "name")] ++ [CallPut page] in
    match putFault r with
    | Some e => (HttpError e StatusInternalServerError,
                 mkWorld (store w) (rng w) cs)
    | None => (SendJson true "Saved" (PayloadMap (idNamePayload page)),
               mkWorld (fst (storePutPage None (store w) page)) (rng w) cs)
    end.
Proof.
  unfold validationOf. intros Hget Hid%String.eqb_eq Hv.
  unfold apiPost, run, bind, lift, doGetPage, doPutPage, updatedPage.
  rewrite Hget. simpl. rewrite Hid. simpl. rewrite Hv. simpl.
  rewrite <- app_assoc.
  destruct (putFault r); reflexivity.
Qed.

(** A run of [apiPut] that answers [ok] passed the validation block and
    committed. *)
Lemma apiPut_ok r w :
  isOk (fst (run (apiPut r) w)) = true →
  ∃ slug website, validationOf r = inr (slug, website) ∧ putFault r = None.
Proof.
  destruct (validationOf r) as [e|[slug website]] eqn:Hv.
  - rewrite (apiPut_invalid _ _ _ Hv). simpl.
    by rewrite (validation_error_not_ok _ _ Hv).
  - rewrite (apiPut_valid _ _ _ _ Hv). simpl.
    destruct (putFault r); [done|]. eauto.
Qed.

(** A run of [apiPost] that answers [ok] found the page, with the id of
    the request, passed the validation block and committed. *)
Lemma apiPost_ok r w :
  isOk (fst (run (apiPost r) w)) = true →
  ∃ existPage slug website,
    storeGetPage (getFault r) (store w) (FormValue r "name") = (Some existPage, None)
    ∧ Id existPage = FormValue r "id"
    ∧ validationOf r = inr (slug, website) ∧ putFault r = None.
Proof.
  destruct (storeGetPage (getFault r) (store w) (FormValue r "name"))
    as [found [e|]] eqn:Hget.
  { by rewrite (apiPost_get_failed _ _ _ _ Hget). }
  destruct found as [existPage|]; [|by rewrite (apiPost_missing _ _ Hget)].
  destruct (decide (Id existPage = FormValue r "id")) as [Hid|Hid];
    [|by rewrite (apiPost_denied _ _ _ Hget Hid)].
  destruct (validationOf r) as [e|[slug website]] eqn:Hv.
  - rewrite (apiPost_invalid _ _ _ _ Hget Hid Hv). simpl.
    by rewrite (validation_error_not_ok _ _ Hv).
  - rewrite (apiPost_valid _ _ _ _ _ Hget Hid Hv). simpl.
    destruct (putFault r); [done|]. eauto 10.
Qed.
End RunFacts.

(** ** The handlers and the store *)

Section ApiFacts.
Context `{E : Externals}.
Implicit Types (r : Input) (w : World).

Lemma putsOf_snoc_get cs name : putsOf (cs ++ [CallGet name]) = putsOf cs.
Proof. unfold putsOf. rewrite filter_app. simpl. apply app_nil_r. Qed.

Lemma putsOf_snoc_put cs page : putsOf (cs ++ [CallPut page]) = putsOf cs ++ [CallPut page].
Proof. unfold putsOf. by rewrite filter_app. Qed.

(** Both handlers keep every record under its own name. *)
Lemma apiPut_wf r w : wfDB (store w) → wfDB (store (snd (run (apiPut r) w))).
Proof.
  intros Hwf. destruct (validationOf r) as [e|[slug website]] eqn:Hv.
  - by rewrite (apiPut_invalid _ _ _ Hv).
  - rewrite (apiPut_valid _ _ _ _ Hv). simpl.
    destruct (putFault r); simpl; [done|].
    by apply (wfDB_put None).
Qed.

Lemma apiPost_wf r w : wfDB (store w) → wfDB (store (snd (run (apiPost r) w))).
Proof.
  intros Hwf.
  destruct (storeGetPage (getFault r) (store w) (FormValue r "name"))
    as [found [e|]] eqn:Hget.
  { by rewrite (apiPost_get_failed _ _ _ _ Hget). }
  destruct found as [existPage|]; [|by rewrite (apiPost_missing _ _ Hget)].
  destruct (decide (Id existPage = FormValue r "id")) as [Hid|Hid];
    [|by rewrite (apiPost_denied _ _ _ Hget Hid)].
  destruct (validationOf r) as [e|[slug website]] eqn:Hv.
  - by rewrite (apiPost_invalid _ _ _ _ Hget Hid Hv).
  - rewrite (apiPost_valid _ _ _ _ _ Hget Hid Hv). cbv zeta.
    destruct (putFault r); cbn [fst snd store]; [done|].
    exact (wfDB_put None _ _ Hwf).
Qed.

(** A lookup by id writes nothing. *)
Lemma apiGet_store r w : store (snd (run (apiGet r) w)) = store w.
Proof.
  unfold apiGet, run, bind, doGetPageUsingId.
  destruct (storeGetPageUsingId _ _ _) as [[page|] [e|]]; reflexivity.
Qed.

(** An update never writes unless it answers [ok]; an update that does
    not write leaves the database as it was. *)
Lemma apiPost_store r w :
  store (snd (run (apiPost r) w)) = store w
  ∨ isOk (fst (run (apiPost r) w)) = true.
Proof.
  destruct (storeGetPage (getFault r) (store w) (FormValue r "name"))
    as [found [e|]] eqn:Hget.
  { left. by rewrite (apiPost_get_failed _ _ _ _ Hget). }
  destruct found as [existPage|];
    [|left; by rewrite (apiPost_missing _ _ Hget)].
  destruct (decide (Id existPage = FormValue r "id")) as [Hid|Hid];
    [|left; by rewrite (apiPost_denied _ _ _ Hget Hid)].
  destruct (validationOf r) as [e|[slug website]] eqn:Hv.
  - left. by rewrite (apiPost_invalid _ _ _ _ Hget Hid Hv).
  - rewrite (apiPost_valid _ _ _ _ _ Hget Hid Hv). simpl.
    destruct (putFault r); [by left|by right].
Qed.

(** The record an update that succeeds stores under the name. *)
Lemma update_keeps_identity_aux r w :
  wfDB (store w) →
  isOk (fst (run (apiPost r) w)) = true →
  ∃ website old,
    byName (store (snd (run (apiPost r) w))) !! FormValue r "name"
    = Some (updatedPage r old website).
Proof.
  intros Hwf Hok.
  destruct (apiPost_ok _ _ Hok) as (old & slug & website & Hget & Hid & Hv & Hput).
  rewrite (apiPost_valid _ _ _ _ _ Hget Hid Hv), Hput. simpl.
  apply storeGetPage_found in Hget.
  exists website, old. rewrite (Hwf _ _ Hget). apply lookup_insert_eq.
Qed.

(** C2: an update that names a stored page and carries another id than
    the page's is answered with the permission error; the one store call
    it makes is the read, and the database, the record under the name
    included, is as it was. *)
Theorem update_wrong_id_denied r w existPage :
  storeGetPage (getFault r) (store w) (FormValue r "name") = (Some existPage, None) →
  Id existPage ≠ FormValue r "id" →
  fst (run (apiPost r) w) = SendError "Permission denied."
  ∧ calls (snd (run (apiPost r) w)) = calls w ++ [CallGet (FormValue r "name")]
  ∧ putsOf (calls (snd (run (apiPost r) w))) = putsOf (calls w)
  ∧ store (snd (run (apiPost r) w)) = store w
  ∧ byName (store (snd (run (apiPost r) w))) !! FormValue r "name" = Some existPage.
Proof.
  intros Hget Hid. rewrite (apiPost_denied _ _ _ Hget Hid). simpl.
  repeat split; [apply putsOf_snoc_get|].
  by apply storeGetPage_found in Hget.
Qed.

(** C3: after an update that succeeds, the record stored under the name
    has the id, the name and the creation time of the record that was
    there before, its update time is the time of the request, and its
    title, content, author, handles and markup are those of the
    request. *)
Theorem update_keeps_identity r w :
  wfDB (store w) →
  isOk (fst (run (apiPost r) w)) = true →
  ∃ old new,
    byName (store w) !! FormValue r "name" = Some old
    ∧ Id old = FormValue r "id"
    ∧ byName (store (snd (run (apiPost r) w))) !! FormValue r "name" = Some new
    ∧ putsOf (calls (snd (run (apiPost r) w))) = putsOf (calls w) ++ [CallPut new]
    ∧ Id new = Id old ∧ Name new = Name old ∧ Inserted new = Inserted old
    ∧ Updated new = now r
    ∧ Title new = FormValue r "title"
    ∧ Content new = FormValue r "content"
    ∧ Author new = FormValue r "author"
    ∧ Twitter new = FormValue r "twitter"
    ∧ GitHub new = FormValue r "github"
    ∧ Facebook new = FormValue r "facebook"
    ∧ Instagram new = FormValue r "instagram"
    ∧ websiteChecked r new
    ∧ Html new = MarkdownCommon (FormValue r "content").
Proof.
  intros Hwf Hok.
  destruct (apiPost_ok _ _ Hok) as (old & slug & website & Hget & Hid & Hv & Hput).
  rewrite (apiPost_valid _ _ _ _ _ Hget Hid Hv), Hput.
  cbv zeta. cbn [fst snd store calls].
  apply storeGetPage_found in Hget.
  pose proof (Hwf _ _ Hget) as Hname.
  exists old, (updatedPage r old website).
  destruct (validation_passed _ _ _ Hv) as (_ & _ & Hsite0 & Hsite1).
  repeat split; try done.
  - simpl. rewrite Hname. apply lookup_insert_eq.
  - rewrite app_assoc, putsOf_snoc_put. by rewrite putsOf_snoc_get.
  - intros u Hne Hu. by apply Hsite1.
Qed.

(** C4, as the handlers have it: a creation whose title has an empty
    slug is answered with the title error before any store call; an
    update whose title has an empty slug is answered with it once the
    page is found and the id is the page's; and no update with such a
    title writes to the store. *)
Theorem no_title_rejected r w :
  Slugify (FormValue r "title") = "" →
  run (apiPut r) w = (SendError "Provide a title", w)
  ∧ (∀ existPage,
       storeGetPage (getFault r) (store w) (FormValue r "name") = (Some existPage, None) →
       Id existPage = FormValue r "id" →
       fst (run (apiPost r) w) = SendError "Provide a title")
  ∧ store (snd (run (apiPost r) w)) = store w
  ∧ putsOf (calls (snd (run (apiPost r) w))) = putsOf (calls w).
Proof.
  intros Hv%validation_no_title. split; [by apply apiPut_invalid|].
  split; [intros p Hget Hid; by rewrite (apiPost_invalid _ _ _ _ Hget Hid Hv)|].
  destruct (storeGetPage (getFault r) (store w) (FormValue r "name"))
    as [found [e|]] eqn:Hget.
  { rewrite (apiPost_get_failed _ _ _ _ Hget). simpl.
    split; [done|apply putsOf_snoc_get]. }
  destruct found as [existPage|].
  2: { rewrite (apiPost_missing _ _ Hget). simpl.
       split; [done|apply putsOf_snoc_get]. }
  destruct (decide (Id existPage = FormValue r "id")) as [Hid|Hid].
  - rewrite (apiPost_invalid _ _ _ _ Hget Hid Hv). simpl.
    split; [done|apply putsOf_snoc_get].
  - rewrite (apiPost_denied _ _ _ Hget Hid). simpl.
    split; [done|apply putsOf_snoc_get].
Qed.

(** C5: an update looks the name up first and answers that the page does
    not exist when it is not stored; it compares the ids next and answers
    with the permission error when they differ, whatever the other
    fields hold; only then does an error of the validation block become
    the answer. *)
Theorem update_checks_in_order r w :
  (storeGetPage (getFault r) (store w) (FormValue r "name") = (None, None) →
     fst (run (apiPost r) w) = SendError "This page name does not exist.")
  ∧ (∀ existPage,
       storeGetPage (getFault r) (store w) (FormValue r "name") = (Some existPage, None) →
       Id existPage ≠ FormValue r "id" →
       fst (run (apiPost r) w) = SendError "Permission denied.")
  ∧ (∀ existPage e,
       storeGetPage (getFault r) (store w) (FormValue r "name") = (Some existPage, None) →
       Id existPage = FormValue r "id" →
       validationOf r = inl e →
       fst (run (apiPost r) w) = e).
Proof.
  split; [intros Hget; by rewrite (apiPost_missing _ _ Hget)|].
  split; [intros p Hget Hid; by rewrite (apiPost_denied _ _ _ Hget Hid)|].
  intros p e Hget Hid Hv. by rewrite (apiPost_invalid _ _ _ _ Hget Hid Hv).
Qed.

(** C6: after a creation or an update that succeeds, the markup of the
    stored record is the rendering of its content, which is the content
    of the request. *)
Theorem stored_html_renders_content r w :
  (isOk (fst (run (apiPut r) w)) = true →
     ∃ page,
       fst (run (apiPut r) w) = SendJson true "Saved" (PayloadMap (idNamePayload page))
       ∧ byName (store (snd (run (apiPut r) w))) !! Name page = Some page
       ∧ Content page = FormValue r "content"
       ∧ Html page = MarkdownCommon (Content page))
  ∧ (wfDB (store w) → isOk (fst (run (apiPost r) w)) = true →
     ∃ page,
       byName (store (snd (run (apiPost r) w))) !! FormValue r "name" = Some page
       ∧ Content page = FormValue r "content"
       ∧ Html page = MarkdownCommon (Content page)).
Proof.
  split.
  - intros Hok. destruct (apiPut_ok _ _ Hok) as (slug & website & Hv & Hput).
    rewrite (apiPut_valid _ _ _ _ Hv), Hput. simpl.
    eexists. split; [reflexivity|]. simpl.
    split; [apply lookup_insert_eq|done].
  - intros Hwf Hok.
    destruct (update_keeps_identity_aux r w Hwf Hok) as (website & old & Hnew).
    exists (updatedPage r old website). by split.
Qed.

Lemma idNamePayload_id page : idNamePayload page !! "id" = Some (Id page).
Proof. unfold idNamePayload. rewrite lookup_insert_ne; [|done]. apply lookup_insert_eq. Qed.

Lemma idNamePayload_name page : idNamePayload page !! "name" = Some (Name page).
Proof. unfold idNamePayload. apply lookup_insert_eq. Qed.

Lemma idNamePayload_other page key :
  key ≠ "id" → key ≠ "name" → idNamePayload page !! key = None.
Proof.
  intros Hid Hname. unfold idNamePayload.
  rewrite lookup_insert_ne; [|done]. rewrite lookup_insert_ne; [|done].
  apply lookup_empty.
Qed.

Lemma app_dash_nonempty (slug suffix : string) : (slug +:+ "-") +:+ suffix ≠ "".
Proof. destruct slug; cbv [String.append]; discriminate. Qed.

(** C7, as the handlers have it: the website is checked once the title
    has a slug (and, in an update, once the page is found and the id is
    the page's), and the check is [url.ParseRequestURI], which takes an
    absolute URI or an absolute path.  A website that is not empty and
    that [url.ParseRequestURI] turns down is then answered with the
    website error, and nothing is written; the record a successful
    request stores holds the printed form of the parsed URL, or the empty
    string for an empty website; a request with an empty website is never
    answered with the website error; and the website error is the answer
    only to a website that is not empty and that [url.ParseRequestURI]
    turns down, so that no website it takes is refused for want of a
    scheme. *)
Theorem website_checked_after_title r w :
  (Slugify (FormValue r "title") ≠ "" →
   FormValue r "website" ≠ "" →
   ParseRequestURI (FormValue r "website") = None →
     run (apiPut r) w = (SendError "Invalid website URL", w))
  ∧ (isOk (fst (run (apiPut r) w)) = true →
     ∃ page,
       fst (run (apiPut r) w) = SendJson true "Saved" (PayloadMap (idNamePayload page))
       ∧ byName (store (snd (run (apiPut r) w))) !! Name page = Some page
       ∧ websiteChecked r page)
  ∧ (FormValue r "website" = "" →
     fst (run (apiPut r) w) ≠ SendError "Invalid website URL")
  ∧ (∀ existPage,
       storeGetPage (getFault r) (store w) (FormValue r "name") = (Some existPage, None) →
       Id existPage = FormValue r "id" →
       Slugify (FormValue r "title") ≠ "" →
       FormValue r "website" ≠ "" →
       ParseRequestURI (FormValue r "website") = None →
         fst (run (apiPost r) w) = SendError "Invalid website URL"
         ∧ store (snd (run (apiPost r) w)) = store w
         ∧ putsOf (calls (snd (run (apiPost r) w))) = putsOf (calls w))
  ∧ (wfDB (store w) → isOk (fst (run (apiPost r) w)) = true →
     ∃ page,
       byName (store (snd (run (apiPost r) w))) !! FormValue r "name" = Some page
       ∧ websiteChecked r page)
  ∧ (FormValue r "website" = "" →
     fst (run (apiPost r) w) ≠ SendError "Invalid website URL")
  ∧ (fst (run (apiPut r) w) = SendError "Invalid website URL" →
     FormValue r "website" ≠ ""
     ∧ ParseRequestURI (FormValue r "website") = None)
  ∧ (fst (run (apiPost r) w) = SendError "Invalid website URL" →
     FormValue r "website" ≠ ""
     ∧ ParseRequestURI (FormValue r "website") = None).
Proof.
  repeat apply conj.
  - intros Hslug Hsite Hparse.
    by apply apiPut_invalid, validation_bad_website.
  - intros Hok. destruct (apiPut_ok _ _ Hok) as (slug & website & Hv & Hput).
    rewrite (apiPut_valid _ _ _ _ Hv), Hput. simpl.
    eexists. split; [reflexivity|]. simpl.
    split; [apply lookup_insert_eq|].
    destruct (validation_passed _ _ _ Hv) as (_ & _ & Hsite0 & Hsite1).
    split; simpl; [done|]. intros u Hne Hu. by apply Hsite1.
  - intros Hsite. destruct (validationOf r) as [e|[slug website]] eqn:Hv.
    + rewrite (apiPut_invalid _ _ _ Hv). simpl. intros ->.
      by apply (validation_empty_website r).
    + rewrite (apiPut_valid _ _ _ _ Hv). simpl. by destruct (putFault r).
  - intros p Hget Hid Hslug Hsite Hparse.
    rewrite (apiPost_invalid _ _ _ _ Hget Hid
               (validation_bad_website _ Hslug Hsite Hparse)). simpl.
    repeat split. apply putsOf_snoc_get.
  - intros Hwf Hok.
    destruct (apiPost_ok _ _ Hok) as (old & slug & website & Hget & Hid & Hv & Hput).
    rewrite (apiPost_valid _ _ _ _ _ Hget Hid Hv), Hput. simpl.
    apply storeGetPage_found in Hget.
    exists (updatedPage r old website).
    split; [rewrite (Hwf _ _ Hget); apply lookup_insert_eq|].
    destruct (validation_passed _ _ _ Hv) as (_ & _ & Hsite0 & Hsite1).
    split; simpl; [done|]. intros u Hne Hu. by apply Hsite1.
  - intros Hsite.
    destruct (storeGetPage (getFault r) (store w) (FormValue r "name"))
      as [found [e|]] eqn:Hget.
    { by rewrite (apiPost_get_failed _ _ _ _ Hget). }
    destruct found as [existPage|]; [|by rewrite (apiPost_missing _ _ Hget)].
    destruct (decide (Id existPage = FormValue r "id")) as [Hid|Hid];
      [|by rewrite (apiPost_denied _ _ _ Hget Hid)].
    destruct (validationOf r) as [e|[slug website]] eqn:Hv.
    + rewrite (apiPost_invalid _ _ _ _ Hget Hid Hv). simpl. intros ->.
      by apply (validation_empty_website r).
    + rewrite (apiPost_valid _ _ _ _ _ Hget Hid Hv). simpl.
      by destruct (putFault r).
  - destruct (validationOf r) as [e|[slug website]] eqn:Hv.
    + rewrite (apiPut_invalid _ _ _ Hv). simpl. intros ->.
      by apply validation_website_error.
    + rewrite (apiPut_valid _ _ _ _ Hv). simpl. by destruct (putFault r).
  - destruct (storeGetPage (getFault r) (store w) (FormValue r "name"))
      as [found [e|]] eqn:Hget.
    { by rewrite (apiPost_get_failed _ _ _ _ Hget). }
    destruct found as [existPage|]; [|by rewrite (apiPost_missing _ _ Hget)].
    destruct (decide (Id existPage = FormValue r "id")) as [Hid|Hid];
      [|by rewrite (apiPost_denied _ _ _ Hget Hid)].
    destruct (validationOf r) as [e|[slug website]] eqn:Hv.
    + rewrite (apiPost_invalid _ _ _ _ Hget Hid Hv). simpl. intros ->.
      by apply validation_website_error.
    + rewrite (apiPost_valid _ _ _ _ _ Hget Hid Hv). simpl.
      by destruct (putFault r).
Qed.

(** C8, as the handler has it: a creation that succeeds answers with a
    map of two entries, the id and the name of the page it stored, and
    with no other field of the page. *)
Theorem create_answers_id_and_name r w :
  isOk (fst (run (apiPut r) w)) = true →
  ∃ page fields,
    fst (run (apiPut r) w) = SendJson true "Saved" (PayloadMap fields)
    ∧ byName (store (snd (run (apiPut r) w))) !! Name page = Some page
    ∧ fields !! "id" = Some (Id page)
    ∧ fields !! "name" = Some (Name page)
    ∧ ∀ key, key ≠ "id" → key ≠ "name" → fields !! key = None.
Proof.
  intros Hok. destruct (apiPut_ok _ _ Hok) as (slug & website & Hv & Hput).
  rewrite (apiPut_valid _ _ _ _ Hv), Hput. simpl.
  eexists _, _. split; [reflexivity|].
  split; [apply lookup_insert_eq|].
  split; [apply idNamePayload_id|].
  split; [apply idNamePayload_name|apply idNamePayload_other].
Qed.

(** C9: the name a creation that succeeds answers with is the slug of
    the title, a dash, and the eight-byte string drawn from the random
    source after the id; it is not empty.  The creation makes one store
    call, the write of the page, and leaves the random source after its
    two draws, so that the next creation draws its id and its suffix
    anew. *)
Theorem created_name_is_slug_dash_suffix r w :
  isOk (fst (run (apiPut r) w)) = true →
  ∃ page,
    fst (run (apiPut r) w) = SendJson true "Saved" (PayloadMap (idNamePayload page))
    ∧ idNamePayload page !! "name" = Some (Name page)
    ∧ byName (store (snd (run (apiPut r) w))) !! Name page = Some page
    ∧ Id page = fst (randStr 16 (rng w))
    ∧ Name page = (Slugify (FormValue r "title") +:+ "-")
                  +:+ fst (randStr 8 (snd (randStr 16 (rng w))))
    ∧ Name page ≠ ""
    ∧ byId (store (snd (run (apiPut r) w))) !! Id page = Some (Name page)
    ∧ calls (snd (run (apiPut r) w)) = calls w ++ [CallPut page]
    ∧ rng (snd (run (apiPut r) w)) = snd (randStr 8 (snd (randStr 16 (rng w))))
    ∧ (∀ r2,
         isOk (fst (run (apiPut r2) (snd (run (apiPut r) w)))) = true →
         ∃ page2,
           fst (run (apiPut r2) (snd (run (apiPut r) w)))
           = SendJson true "Saved" (PayloadMap (idNamePayload page2))
           ∧ Id page2
             = fst (randStr 16 (snd (randStr 8 (snd (randStr 16 (rng w))))))
           ∧ Name page2
             = (Slugify (FormValue r2 "title") +:+ "-")
               +:+ fst (randStr 8 (snd (randStr 16
                        (snd (randStr 8 (snd (randStr 16 (rng w))))))))).
Proof.
  intros Hok. destruct (apiPut_ok _ _ Hok) as (slug & website & Hv & Hput).
  rewrite (apiPut_valid _ _ _ _ Hv), Hput. cbv zeta. cbn [fst snd store rng calls].
  destruct (validation_passed _ _ _ Hv) as (-> & _).
  eexists. split; [reflexivity|].
  split; [apply idNamePayload_name|].
  split; [simpl; apply lookup_insert_eq|].
  split; [done|]. split; [done|]. split; [apply app_dash_nonempty|].
  split; [simpl; apply lookup_insert_eq|].
  split; [done|]. split; [done|].
  intros r2 Hok2.
  destruct (apiPut_ok _ _ Hok2) as (slug2 & website2 & Hv2 & Hput2).
  rewrite (apiPut_valid _ _ _ _ Hv2), Hput2. cbv zeta. cbn [fst snd rng].
  destruct (validation_passed _ _ _ Hv2) as (-> & _).
  eexists. split; [reflexivity|]. done.
Qed.
End ApiFacts.

(** ** The validators on ASCII handles *)

Section AsciiHandles.
Variable M : string → string.
Implicit Types (s handle : string) (c : ascii) (p : ascii → bool).

Lemma mapBytes_lowerByte_id s : hasUpper s = false → mapBytes lowerByte s = s.
Proof.
  induction s as [|c s IH]; simpl; [done|].
  intros [Hc Hs]%orb_false_iff. rewrite (IH Hs). unfold lowerByte. by rewrite Hc.
Qed.

(** On a string of ASCII bytes [strings.ToLower] works byte by byte. *)
Lemma ToLower_ascii s : isASCII s = true → ToLower M s = mapBytes lowerByte s.
Proof.
  intros Hs. unfold ToLower. rewrite Hs.
  destruct (hasUpper s) eqn:Hup; simpl; [done|].
  by rewrite mapBytes_lowerByte_id.
Qed.

Lemma allBytes_mapBytes p (f : ascii → ascii) s :
  allBytes p (mapBytes f s) = allBytes (fun c => p (f c)) s.
Proof. induction s as [|c s IH]; simpl; [done|]. by rewrite IH. Qed.

Lemma allBytes_app p s1 s2 :
  allBytes p (s1 +:+ s2) = allBytes p s1 && allBytes p s2.
Proof.
  induction s1 as [|c s1 IH]; [done|].
  change (String c s1 +:+ s2) with (String c (s1 +:+ s2)). simpl.
  rewrite IH. by rewrite andb_assoc.
Qed.

Lemma mapBytes_app (f : ascii → ascii) s1 s2 :
  mapBytes f (s1 +:+ s2) = mapBytes f s1 +:+ mapBytes f s2.
Proof.
  induction s1 as [|c s1 IH]; [done|].
  change (String c s1 +:+ s2) with (String c (s1 +:+ s2)). simpl.
  by rewrite IH.
Qed.

Lemma isASCII_app s1 s2 : isASCII (s1 +:+ s2) = isASCII s1 && isASCII s2.
Proof.
  induction s1 as [|c s1 IH]; [done|].
  change (String c s1 +:+ s2) with (String c (s1 +:+ s2)). simpl.
  rewrite IH. by rewrite andb_assoc.
Qed.

Lemma lowered_letter c : byteIn "a" "z" (lowerByte c) = isLetter c.
Proof. destruct c as [[] [] [] [] [] [] [] []]; vm_compute; reflexivity. Qed.

Lemma lowered_symbol c (d : ascii) :
  byteIn "a" "z" (lowerByte c) || Ascii.eqb (lowerByte c) d
  = isLetter c || Ascii.eqb c d.
Proof.
  rewrite lowered_letter. unfold isLetter, lowerByte.
  destruct (byteIn "A" "Z" c) eqn:Hc; [by rewrite orb_true_r|].
  done.
Qed.

(** X1: each validator accepts a handle exactly when every byte of the
    lower-cased handle is a lower-case letter or the one symbol of the
    validator (underscore, dash, dot, none). *)
Theorem validators_accept_lowered_letters handle :
  isValidTwitterHandle M handle
  = allBytes (fun c => byteIn "a" "z" c || Ascii.eqb c "_") (ToLower M handle)
  ∧ isValidGitHubHandle M handle
    = allBytes (fun c => byteIn "a" "z" c || Ascii.eqb c "-") (ToLower M handle)
  ∧ isValidFacebookHandle M handle
    = allBytes (fun c => byteIn "a" "z" c || Ascii.eqb c ".") (ToLower M handle)
  ∧ isValidInstagramHandle M handle
    = allBytes (byteIn "a" "z") (ToLower M handle).
Proof.
  split; [apply isValidTwitterHandle_all|].
  split; [apply isValidGitHubHandle_all|].
  split; [apply isValidFacebookHandle_all|apply isValidInstagramHandle_all].
Qed.

(** X2: a handle of ASCII bytes is accepted exactly when each of its bytes
    is a letter, of either case, or the symbol of the validator: the
    validators do not tell the cases apart, and turn down digits, spaces
    and every other byte. *)
Theorem ascii_handle_accepted handle :
  isASCII handle = true →
  isValidTwitterHandle M handle
  = allBytes (fun c => isLetter c || Ascii.eqb c "_") handle
  ∧ isValidGitHubHandle M handle
    = allBytes (fun c => isLetter c || Ascii.eqb c "-") handle
  ∧ isValidFacebookHandle M handle
    = allBytes (fun c => isLetter c || Ascii.eqb c ".") handle
  ∧ isValidInstagramHandle M handle = allBytes isLetter handle.
Proof.
  intros Hascii.
  rewrite isValidTwitterHandle_all, isValidGitHubHandle_all,
    isValidFacebookHandle_all, isValidInstagramHandle_all.
  rewrite (ToLower_ascii _ Hascii), !allBytes_mapBytes.
  repeat split; apply allBytes_ext; intros c;
    first [apply lowered_symbol | apply lowered_letter].
Qed.

(** X3: two handles of ASCII bytes put one after the other are accepted
    exactly when both are. *)
Theorem ascii_handles_concatenate handle1 handle2 :
  isASCII handle1 = true → isASCII handle2 = true →
  isValidTwitterHandle M (handle1 +:+ handle2)
  = isValidTwitterHandle M handle1 && isValidTwitterHandle M handle2
  ∧ isValidGitHubHandle M (handle1 +:+ handle2)
    = isValidGitHubHandle M handle1 && isValidGitHubHandle M handle2
  ∧ isValidFacebookHandle M (handle1 +:+ handle2)
    = isValidFacebookHandle M handle1 && isValidFacebookHandle M handle2
  ∧ isValidInstagramHandle M (handle1 +:+ handle2)
    = isValidInstagramHandle M handle1 && isValidInstagramHandle M handle2.
Proof.
  intros H1 H2.
  assert (isASCII (handle1 +:+ handle2) = true) as H12
    by (by rewrite isASCII_app, H1, H2).
  rewrite !isValidTwitterHandle_all, !isValidGitHubHandle_all,
    !isValidFacebookHandle_all, !isValidInstagramHandle_all.
  rewrite (ToLower_ascii _ H12), (ToLower_ascii _ H1), (ToLower_ascii _ H2).
  by rewrite mapBytes_app, !allBytes_app.
Qed.
End AsciiHandles.

(** ** The validation block, check by check *)

Section ValidationOrder.
Context `{E : Externals}.
Implicit Types (r : Input) (slug website : string).

Lemma isEmptyString_false s : isEmptyString s = false ↔ s ≠ "".
Proof. destruct s; simpl; split; done. Qed.

(** What the website check makes of the website. *)
Lemma website_check (website : string) :
  match (if negb (isEmptyString website) then
           match ParseRequestURI website with
           | None => inl (SendError "Invalid website URL")
           | Some u => inr (URLString u)
           end
         else inr website) with
  | inl e => e = SendError "Invalid website URL" ∧ ¬ websiteOk website
  | inr _ => websiteOk website
  end.
Proof.
  unfold websiteOk. destruct website as [|d site]; simpl; [by left|].
  destruct (ParseRequestURI (String d site)) as [u|]; [by right|].
  split; [done|]. intros [[=]|[? [=]]].
Qed.

(** X4: the validation block lets a request through exactly when the
    title has a slug, the website is empty or parses, and each of the four
    handles is empty or accepted by its validator. *)
Theorem validation_passes_iff r :
  (∃ slug website, validationOf r = inr (slug, website))
  ↔ Slugify (FormValue r "title") ≠ ""
    ∧ websiteOk (FormValue r "website")
    ∧ handleOk (isValidTwitterHandle MapUnicodeToLower) (FormValue r "twitter") = true
    ∧ handleOk (isValidGitHubHandle MapUnicodeToLower) (FormValue r "github") = true
    ∧ handleOk (isValidFacebookHandle MapUnicodeToLower) (FormValue r "facebook") = true
    ∧ handleOk (isValidInstagramHandle MapUnicodeToLower) (FormValue r "instagram") = true.
Proof.
  unfold validationOf, validation, handleOk.
  destruct (Slugify (FormValue r "title")) as [|c slug]; simpl.
  { split; [intros (? & ? & [=])|intros [? _]; done]. }
  pose proof (website_check (FormValue r "website")) as Hsite.
  destruct (if negb (isEmptyString (FormValue r "website")) then _ else _)
    as [e|website].
  { destruct Hsite as [_ Hno].
    split; [intros (? & ? & [=])|intros (_ & ? & _); done]. }
  rewrite <- !negb_orb.
  destruct (isEmptyString (FormValue r "twitter") || _),
    (isEmptyString (FormValue r "github") || _),
    (isEmptyString (FormValue r "facebook") || _),
    (isEmptyString (FormValue r "instagram") || _); simpl;
    (split;
     [intros (? & ? & Heq); try discriminate Heq; repeat split; done
     |intros (_ & _ & ? & ? & ? & ?); first [congruence | eauto]]).
Qed.

(** X5: the checks of the validation block are made in the order title,
    website, twitter, github, facebook, instagram, and the first that
    fails is the one reported: each of the six messages is the result
    exactly when its check fails and the checks before it pass. *)
Theorem validation_first_failure r :
  (validationOf r = inl (SendError "Provide a title")
   ↔ Slugify (FormValue r "title") = "")
  ∧ (validationOf r = inl (SendError "Invalid website URL")
     ↔ Slugify (FormValue r "title") ≠ ""
       ∧ ¬ websiteOk (FormValue r "website"))
  ∧ (validationOf r
     = inl (SendError "Invalid Twitter Handle. Only letters, numbers, and underscore allowed.")
     ↔ Slugify (FormValue r "title") ≠ ""
       ∧ websiteOk (FormValue r "website")
       ∧ handleOk (isValidTwitterHandle MapUnicodeToLower) (FormValue r "twitter") = false)
  ∧ (validationOf r
     = inl (SendError "Invalid GitHub Handle. Only letters, numbers, and dash allowed.")
     ↔ Slugify (FormValue r "title") ≠ ""
       ∧ websiteOk (FormValue r "website")
       ∧ handleOk (isValidTwitterHandle MapUnicodeToLower) (FormValue r "twitter") = true
       ∧ handleOk (isValidGitHubHandle MapUnicodeToLower) (FormValue r "github") = false)
  ∧ (validationOf r
     = inl (SendError "Invalid Facebook Handle. Only letters, numbers, and dot allowed.")
     ↔ Slugify (FormValue r "title") ≠ ""
       ∧ websiteOk (FormValue r "website")
       ∧ handleOk (isValidTwitterHandle MapUnicodeToLower) (FormValue r "twitter") = true
       ∧ handleOk (isValidGitHubHandle MapUnicodeToLower) (FormValue r "github") = true
       ∧ handleOk (isValidFacebookHandle MapUnicodeToLower) (FormValue r "facebook") = false)
  ∧ (validationOf r
     = inl (SendError "Invalid Instagram Handle. Only letters and numbers allowed.")
     ↔ Slugify (FormValue r "title") ≠ ""
       ∧ websiteOk (FormValue r "website")
       ∧ handleOk (isValidTwitterHandle MapUnicodeToLower) (FormValue r "twitter") = true
       ∧ handleOk (isValidGitHubHandle MapUnicodeToLower) (FormValue r "github") = true
       ∧ handleOk (isValidFacebookHandle MapUnicodeToLower) (FormValue r "facebook") = true
       ∧ handleOk (isValidInstagramHandle MapUnicodeToLower) (FormValue r "instagram") = false).
Proof.
  unfold validationOf, validation, handleOk.
  destruct (Slugify (FormValue r "title")) as [|c slug]; simpl.
  { repeat split; first [done | intros [=] | intros [? _]; done]. }
  pose proof (website_check (FormValue r "website")) as Hsite.
  destruct (if negb (isEmptyString (FormValue r "website")) then _ else _)
    as [e|website].
  - destruct Hsite as [-> Hno]. revert Hno.
    generalize (websiteOk (FormValue r "website")). intros P HP.
    repeat split; first [done | intros [=] | intros (_ & ? & _); done ].
  - revert Hsite. generalize (websiteOk (FormValue r "website")). intros P HP.
    rewrite <- !negb_orb.
    destruct (isEmptyString (FormValue r "twitter") || _),
      (isEmptyString (FormValue r "github") || _),
      (isEmptyString (FormValue r "facebook") || _),
      (isEmptyString (FormValue r "instagram") || _); simpl;
      repeat apply conj; try done; try (intros [=]);
      try (intros ?; repeat split; done);
      try (intros (_ & ? & _); done);
      intros; repeat match goal with H : _ ∧ _ |- _ => destruct H end;
      congruence.
Qed.


End ValidationOrder.

(** ** What the handlers write, and what they leave alone *)

Section WriteFacts.
Context `{E : Externals}.
Implicit Types (r : Input) (w : World) (page : Page).

(** The five ways a run of [apiPost] can go. *)
Lemma apiPost_cases r w (P : Response * World → Prop) :
  let w1 := mkWorld (store w) (rng w) (calls w ++ [CallGet (FormValue r "name")]) in
  (∀ found e,
     storeGetPage (getFault r) (store w) (FormValue r "name") = (found, Some e) →
     P (SendError "Internal Error. Please try again later.", w1)) →
  (storeGetPage (getFault r) (store w) (FormValue r "name") = (None, None) →
     P (SendError "This page name does not exist.", w1)) →
  (∀ old,
     storeGetPage (getFault r) (store w) (FormValue r "name") = (Some old, None) →
     Id old ≠ FormValue r "id" → P (SendError "Permission denied.", w1)) →
  (∀ old e,
     storeGetPage (getFault r) (store w) (FormValue r "name") = (Some old, None) →
     Id old = FormValue r "id" → validationOf r = inl e → P (e, w1)) →
  (∀ old slug website,
     storeGetPage (getFault r) (store w) (FormValue r "name") = (Some old, None) →
     Id old = FormValue r "id" → validationOf r = inr (slug, website) →
     P (let page := updatedPage r old website in
        let cs := calls w ++ [CallGet (FormValue r "name")] ++ [CallPut page] in
        match putFault r with
        | Some e => (HttpError e StatusInternalServerError,
                     mkWorld (store w) (rng w) cs)
        | None => (SendJson true "Saved" (PayloadMap (idNamePayload page)),
                   mkWorld (fst (storePutPage None (store w) page)) (rng w) cs)
        end)) →
  P (run (apiPost r) w).
Proof.
  intros w1 Hfail Hmissing Hdenied Hinvalid Hvalid.
  destruct (storeGetPage (getFault r) (store w) (FormValue r "name"))
    as [found [e|]] eqn:Hget.
  { rewrite (apiPost_get_failed _ _ _ _ Hget). by eapply Hfail. }
  destruct found as [old|];
    [|rewrite (apiPost_missing _ _ Hget); by apply Hmissing].
  destruct (decide (Id old = FormValue r "id")) as [Hid|Hid];
    [|rewrite (apiPost_denied _ _ _ Hget Hid); by eapply Hdenied].
  destruct (validationOf r) as [e|[slug website]] eqn:Hv.
  - rewrite (apiPost_invalid _ _ _ _ Hget Hid Hv). by eapply Hinvalid.
  - rewrite (apiPost_valid _ _ _ _ _ Hget Hid Hv). by eapply Hvalid.
Qed.

(** The two ways a run of [apiPut] can go. *)
Lemma apiPut_cases r w (P : Response * World → Prop) :
  (∀ e, validationOf r = inl e → P (e, w)) →
  (∀ slug website,
     validationOf r = inr (slug, website) →
     P (let page := createdPage r (rng w) slug website in
        let g := snd (randStr 8 (snd (randStr 16 (rng w)))) in
        match putFault r with
        | Some e => (HttpError e StatusInternalServerError,
                     mkWorld (store w) g (calls w ++ [CallPut page]))
        | None => (SendJson true "Saved" (PayloadMap (idNamePayload page)),
                   mkWorld (fst (storePutPage None (store w) page)) g
                           (calls w ++ [CallPut page]))
        end)) →
  P (run (apiPut r) w).
Proof.
  intros Hinvalid Hvalid.
  destruct (validationOf r) as [e|[slug website]] eqn:Hv.
  - rewrite (apiPut_invalid _ _ _ Hv). by apply Hinvalid.
  - rewrite (apiPut_valid _ _ _ _ Hv). by apply Hvalid.
Qed.

Lemma apiGet_run r w :
  run (apiGet r) w =
    (match storeGetPageUsingId (getFault r) (store w) (FormValue r "id") with
     | (_, Some _) => SendError "Internal Error. Please try again later."
     | (None, None) => SendError "This page Id does not exist."
     | (Some page, None) => SendJson true "Saved" (PayloadPage page)
     end,
     mkWorld (store w) (rng w) (calls w ++ [CallGetById (FormValue r "id")])).
Proof.
  unfold apiGet, run, bind, doGetPageUsingId.
  destruct (storeGetPageUsingId _ _ _) as [[page|] [e|]]; reflexivity.
Qed.

Lemma createdPage_name r w slug website :
  slug = Slugify (FormValue r "title") →
  Name (createdPage r (rng w) slug website) = newName r w
  ∧ Id (createdPage r (rng w) slug website) = newId w.
Proof. by intros ->. Qed.

(** X6: a request that is not answered [ok] leaves the database as it
    was; a lookup leaves it as it was in any case, and neither an update
    nor a lookup draws from the random source. *)
Theorem store_written_only_on_ok r w :
  (isOk (fst (run (apiPut r) w)) = false → store (snd (run (apiPut r) w)) = store w)
  ∧ (isOk (fst (run (apiPost r) w)) = false → store (snd (run (apiPost r) w)) = store w)
  ∧ store (snd (run (apiGet r) w)) = store w
  ∧ rng (snd (run (apiPost r) w)) = rng w
  ∧ rng (snd (run (apiGet r) w)) = rng w.
Proof.
  repeat apply conj.
  - apply apiPut_cases; [done|]. intros slug website _. cbv zeta.
    by destruct (putFault r).
  - apply apiPost_cases; try done. intros old slug website _ _ _. cbv zeta.
    by destruct (putFault r).
  - by rewrite apiGet_run.
  - apply apiPost_cases; try done. intros old slug website _ _ _. cbv zeta.
    by destruct (putFault r).
  - by rewrite apiGet_run.
Qed.

(** X7: a creation reads nothing from the store: its only store call, if
    any, is the write.  It changes the by-name bucket at the new name only
    and the by-id bucket at the new id only; and when it succeeds the
    record under the new name is the new page, whether the name was taken
    or not. *)
Theorem create_writes_one_record r w :
  (calls (snd (run (apiPut r) w)) = calls w
   ∨ ∃ page, calls (snd (run (apiPut r) w)) = calls w ++ [CallPut page])
  ∧ (∀ name, name ≠ newName r w →
       byName (store (snd (run (apiPut r) w))) !! name = byName (store w) !! name)
  ∧ (∀ id, id ≠ newId w →
       byId (store (snd (run (apiPut r) w))) !! id = byId (store w) !! id)
  ∧ (isOk (fst (run (apiPut r) w)) = true →
       ∃ page, byName (store (snd (run (apiPut r) w))) !! newName r w = Some page
               ∧ byId (store (snd (run (apiPut r) w))) !! newId w = Some (newName r w)
               ∧ Id page = newId w ∧ Name page = newName r w
               ∧ Title page = FormValue r "title"
               ∧ Inserted page = now r ∧ Updated page = now r).
Proof.
  apply apiPut_cases.
  { intros e He. repeat split; try done; [by left|].
    simpl. intros Hok. by rewrite (validation_error_not_ok _ _ He) in Hok. }
  intros slug website Hv. cbv zeta.
  destruct (validation_passed _ _ _ Hv) as (Hslug & _).
  destruct (createdPage_name r w slug website Hslug) as [Hname Hid].
  assert (Title (createdPage r (rng w) slug website) = FormValue r "title"
          ∧ Inserted (createdPage r (rng w) slug website) = now r
          ∧ Updated (createdPage r (rng w) slug website) = now r) as Hfields by done.
  revert Hname Hid Hfields.
  generalize (createdPage r (rng w) slug website). intros page Hname Hid Hfields.
  destruct (putFault r) as [e|]; cbn [fst snd store calls].
  { repeat split; try done. right. eauto. }
  split; [right; eauto|]. unfold storePutPage. cbn [fst byName byId].
  rewrite Hname, Hid.
  split; [intros name Hne; by apply lookup_insert_ne|].
  split; [intros id Hne; by apply lookup_insert_ne|].
  intros _. exists page. rewrite !lookup_insert_eq. by rewrite Hname, Hid.
Qed.

(** X8: a record of the by-name bucket that an update changes is the
    record read under the name of the request, and the id of the request
    is that record's id; an entry of the by-id bucket that an update
    changes is the entry of the id of the request. *)
Theorem update_changes_only_own_record r w :
  (∀ name,
     byName (store (snd (run (apiPost r) w))) !! name ≠ byName (store w) !! name →
     ∃ old, byName (store w) !! FormValue r "name" = Some old
            ∧ Id old = FormValue r "id" ∧ Name old = name)
  ∧ (∀ id,
       byId (store (snd (run (apiPost r) w))) !! id ≠ byId (store w) !! id →
       id = FormValue r "id").
Proof.
  apply apiPost_cases; try done.
  intros old slug website Hget Hid Hv. cbv zeta.
  destruct (putFault r) as [e|]; cbn [fst snd store]; [done|].
  apply storeGetPage_found in Hget. simpl.
  split.
  - intros name Hchanged. exists old. repeat split; try done.
    destruct (decide (Name old = name)) as [|Hne]; [done|].
    by rewrite lookup_insert_ne in Hchanged.
  - intros id Hchanged. rewrite <- Hid.
    destruct (decide (Id old = id)) as [|Hne]; [done|].
    by rewrite lookup_insert_ne in Hchanged.
Qed.
End WriteFacts.

(** ** Requests one after the other *)

Section Sequences.
Context `{E : Externals}.
Implicit Types (r : Input) (w : World) (page : Page).

(** A committed record is found under its id. *)
Lemma storeGetPageUsingId_put db page :
  storeGetPageUsingId None (fst (storePutPage None db page)) (Id page)
  = (Some page, None).
Proof.
  unfold storeGetPageUsingId, storePutPage. cbn [fst byName byId].
  by rewrite !lookup_insert_eq.
Qed.

Lemma storeGetPage_no_fault fault db name found :
  storeGetPage fault db name = (found, None) → fault = None.
Proof. unfold storeGetPage. by destruct fault. Qed.

(** What a creation that succeeds leaves behind. *)
Lemma apiPut_ok_run r w :
  isOk (fst (run (apiPut r) w)) = true →
  ∃ page g,
    run (apiPut r) w
    = (SendJson true "Saved" (PayloadMap (idNamePayload page)),
       mkWorld (fst (storePutPage None (store w) page)) g (calls w ++ [CallPut page]))
    ∧ Id page = newId w ∧ Name page = newName r w
    ∧ Inserted page = now r.
Proof.
  intros Hok. destruct (apiPut_ok _ _ Hok) as (slug & website & Hv & Hput).
  rewrite (apiPut_valid _ _ _ _ Hv), Hput. cbv zeta.
  destruct (validation_passed _ _ _ Hv) as (Hslug & _).
  destruct (createdPage_name r w slug website Hslug) as [Hname Hid].
  eexists _, _. split; [reflexivity|]. done.
Qed.

(** What an update that succeeds leaves behind. *)
Lemma apiPost_ok_run r w :
  isOk (fst (run (apiPost r) w)) = true →
  ∃ old website,
    byName (store w) !! FormValue r "name" = Some old
    ∧ Id old = FormValue r "id"
    ∧ run (apiPost r) w
      = (SendJson true "Saved" (PayloadMap (idNamePayload (updatedPage r old website))),
         mkWorld (fst (storePutPage None (store w) (updatedPage r old website)))
                 (rng w)
                 (calls w ++ [CallGet (FormValue r "name")]
                  ++ [CallPut (updatedPage r old website)])).
Proof.
  intros Hok.
  destruct (apiPost_ok _ _ Hok) as (old & slug & website & Hget & Hid & Hv & Hput).
  rewrite (apiPost_valid _ _ _ _ _ Hget Hid Hv), Hput. cbv zeta.
  apply storeGetPage_found in Hget. by exists old, website.
Qed.

(** X9: the page a creation or an update has just written is what a
    lookup by its id answers with. *)
Theorem lookup_after_write r w r2 :
  getFault r2 = None →
  (isOk (fst (run (apiPut r) w)) = true → FormValue r2 "id" = newId w →
     ∃ page,
       byName (store (snd (run (apiPut r) w))) !! newName r w = Some page
       ∧ fst (run (apiGet r2) (snd (run (apiPut r) w)))
         = SendJson true "Saved" (PayloadPage page))
  ∧ (isOk (fst (run (apiPost r) w)) = true → FormValue r2 "id" = FormValue r "id" →
     ∃ page,
       putsOf (calls (snd (run (apiPost r) w))) = putsOf (calls w) ++ [CallPut page]
       ∧ fst (run (apiGet r2) (snd (run (apiPost r) w)))
         = SendJson true "Saved" (PayloadPage page)).
Proof.
  intros Hfault. split.
  - intros Hok Hid2.
    destruct (apiPut_ok_run _ _ Hok) as (page & g & -> & Hid & Hname & _).
    exists page. cbn [fst snd store]. split.
    + rewrite <- Hname. unfold storePutPage. cbn [fst byName].
      apply lookup_insert_eq.
    + rewrite apiGet_run. cbn [fst store]. rewrite Hfault, Hid2, <- Hid.
      by rewrite storeGetPageUsingId_put.
  - intros Hok Hid2.
    destruct (apiPost_ok_run _ _ Hok) as (old & website & Hold & Hid & ->).
    exists (updatedPage r old website). cbn [fst snd store calls]. split.
    + rewrite app_assoc, putsOf_snoc_put. by rewrite putsOf_snoc_get.
    + rewrite apiGet_run. cbn [fst store]. rewrite Hfault, Hid2, <- Hid.
      change (Id old) with (Id (updatedPage r old website)).
      by rewrite storeGetPageUsingId_put.
Qed.

(** X10: after a creation that succeeds, an update under the new name is
    turned down when it carries another id than the new one; with the new
    id, fields that pass the validation block and a store that commits, it
    is answered as the creation was, and the record then keeps the
    creation time and carries the update time and the new content. *)
Theorem update_after_create r w r2 :
  isOk (fst (run (apiPut r) w)) = true →
  FormValue r2 "name" = newName r w →
  getFault r2 = None →
  (FormValue r2 "id" ≠ newId w →
     fst (run (apiPost r2) (snd (run (apiPut r) w))) = SendError "Permission denied.")
  ∧ (FormValue r2 "id" = newId w → putFault r2 = None →
     (∃ slug website, validationOf r2 = inr (slug, website)) →
     fst (run (apiPost r2) (snd (run (apiPut r) w))) = fst (run (apiPut r) w)
     ∧ ∃ page,
         byName (store (snd (run (apiPost r2) (snd (run (apiPut r) w)))))
           !! newName r w = Some page
         ∧ Inserted page = now r ∧ Updated page = now r2
         ∧ Content page = FormValue r2 "content").
Proof.
  intros Hok Hname2 Hfault.
  destruct (apiPut_ok_run _ _ Hok) as (page & g & -> & Hid & Hname & Hins).
  cbn [fst snd].
  set (w1 := mkWorld _ _ _).
  assert (storeGetPage (getFault r2) (store w1) (FormValue r2 "name")
          = (Some page, None)) as Hget.
  { rewrite Hfault, Hname2, <- Hname. apply storeGetPage_put. }
  split.
  - intros Hne. rewrite (apiPost_denied _ _ _ Hget); [done|]. by rewrite Hid.
  - intros Hid2 Hput (slug & website & Hv).
    rewrite (apiPost_valid r2 w1 page slug website Hget); [|by rewrite Hid|done].
    rewrite Hput. cbn [fst snd store]. split; [done|].
    exists (updatedPage r2 page website).
    split; [|done].
    rewrite <- Hname. unfold storePutPage. cbn [fst byName].
    apply lookup_insert_eq.
Qed.

(** X11: an update made a second time, with the same form and the same
    reading of the clock, is answered as the first time and leaves the
    database as the first left it. *)
Theorem update_twice r w :
  fst (run (apiPost r) (snd (run (apiPost r) w))) = fst (run (apiPost r) w)
  ∧ store (snd (run (apiPost r) (snd (run (apiPost r) w))))
    = store (snd (run (apiPost r) w)).
Proof.
  pattern (run (apiPost r) w). apply apiPost_cases; cbv zeta.
  - intros found e Hget. cbn [fst snd].
    by rewrite (apiPost_get_failed r (mkWorld _ _ _) found e).
  - intros Hget. cbn [fst snd]. by rewrite (apiPost_missing r (mkWorld _ _ _)).
  - intros old Hget Hid. cbn [fst snd].
    by rewrite (apiPost_denied r (mkWorld _ _ _) old).
  - intros old e Hget Hid Hv. cbn [fst snd].
    by rewrite (apiPost_invalid r (mkWorld _ _ _) old e).
  - intros old slug website Hget Hid Hv.
    destruct (putFault r) as [e|] eqn:Hput; cbn [fst snd].
    { rewrite (apiPost_valid r (mkWorld _ _ _) old slug website); try done.
      by rewrite Hput. }
    pose proof (storeGetPage_no_fault _ _ _ _ Hget) as Hfault.
    pose proof (storeGetPage_found _ _ _ _ Hget) as Hold.
    set (page := updatedPage r old website).
    set (w1 := mkWorld _ _ _).
    destruct (decide (Name old = FormValue r "name")) as [Heq|Hne].
    + assert (storeGetPage (getFault r) (store w1) (FormValue r "name")
              = (Some page, None)) as Hget1.
      { rewrite Hfault, <- Heq. apply (storeGetPage_put (store w) page). }
      rewrite (apiPost_valid r w1 page slug website Hget1 Hid Hv), Hput.
      cbn [fst snd store]. split; [done|].
      change (updatedPage r page website) with page.
      unfold w1, storePutPage. cbn [fst store byName byId].
      by rewrite !insert_insert_eq.
    + assert (storeGetPage (getFault r) (store w1) (FormValue r "name")
              = (Some old, None)) as Hget1.
      { rewrite Hfault. unfold storeGetPage, w1, storePutPage.
        cbn [fst store byName]. f_equal.
        rewrite lookup_insert_ne; done. }
      rewrite (apiPost_valid r w1 old slug website Hget1 Hid Hv), Hput.
      cbn [fst snd store]. split; [done|].
      fold page. unfold w1, storePutPage. cbn [fst store byName byId].
      by rewrite !insert_insert_eq.
Qed.

(** X12: in a database where every record sits under its own name, an
    update that succeeds answers with a map of two entries, the id and
    the name the request carried. *)
Theorem update_answers_id_and_name r w :
  wfDB (store w) →
  isOk (fst (run (apiPost r) w)) = true →
  ∃ fields,
    fst (run (apiPost r) w) = SendJson true "Saved" (PayloadMap fields)
    ∧ fields !! "id" = Some (FormValue r "id")
    ∧ fields !! "name" = Some (FormValue r "name")
    ∧ ∀ key, key ≠ "id" → key ≠ "name" → fields !! key = None.
Proof.
  intros Hwf Hok.
  destruct (apiPost_ok_run _ _ Hok) as (old & website & Hold & Hid & ->).
  eexists. split; [reflexivity|].
  rewrite idNamePayload_id, idNamePayload_name. simpl.
  rewrite Hid, (Hwf _ _ Hold). repeat split. apply idNamePayload_other.
Qed.
End Sequences.

(** ** Invariants of the database *)

Section Invariants.
Context `{E : Externals}.
Implicit Types (r : Input) (w : World) (page : Page) (db : DB).


Lemma idsResolve_put fault db page :
  idsResolve db → idsResolve (fst (storePutPage fault db page)).
Proof.
  intros Hdb. destruct fault as [e|]; [done|].
  intros id name. unfold storePutPage. cbn [fst byName byId].
  rewrite lookup_insert. case_decide as Hid.
  - intros [= <-]. rewrite lookup_insert_eq. by eexists.
  - intros Hname%Hdb. rewrite lookup_insert. by case_decide.
Qed.




(** X14: the two buckets stay in step.  In the empty database, and after
    any creation, update or lookup in a database of which it holds, every
    record sits under its own name and every entry of the by-id bucket
    leads to a record. *)
Theorem handlers_keep_buckets_in_step r w :
  (wfDB emptyDB ∧ idsResolve emptyDB)
  ∧ (wfDB (store w) → idsResolve (store w) →
     (wfDB (store (snd (run (apiPut r) w)))
      ∧ idsResolve (store (snd (run (apiPut r) w))))
     ∧ (wfDB (store (snd (run (apiPost r) w)))
        ∧ idsResolve (store (snd (run (apiPost r) w))))
     ∧ (wfDB (store (snd (run (apiGet r) w)))
        ∧ idsResolve (store (snd (run (apiGet r) w))))).
Proof.
  split.
  { split; [apply wfDB_empty|]. intros id name. simpl. by rewrite lookup_empty. }
  intros Hwf Hids. split; [|split].
  - split; [by apply apiPut_wf|].
    apply apiPut_cases; [done|]. intros slug website _. cbv zeta.
    destruct (putFault r); cbn [snd store]; [done|].
    by apply (idsResolve_put None).
  - split; [by apply apiPost_wf|].
    apply apiPost_cases; try done. intros old slug website _ _ _. cbv zeta.
    destruct (putFault r); cbn [snd store]; [done|].
    by apply (idsResolve_put None).
  - by rewrite apiGet_run.
Qed.

(** X15: in a database whose by-id entries all lead to a record, a lookup
    that meets no storage fault answers that the id does not exist when
    the id is not in the by-id bucket, and with the record the id leads to
    otherwise; it never answers with the internal error. *)
Theorem lookup_on_resolving_store r w :
  idsResolve (store w) →
  getFault r = None →
  (byId (store w) !! FormValue r "id" = None
   ∧ fst (run (apiGet r) w) = SendError "This page Id does not exist.")
  ∨ (∃ name page,
       byId (store w) !! FormValue r "id" = Some name
       ∧ byName (store w) !! name = Some page
       ∧ fst (run (apiGet r) w) = SendJson true "Saved" (PayloadPage page)).
Proof.
  intros Hids Hfault. rewrite apiGet_run. cbn [fst].
  unfold storeGetPageUsingId. rewrite Hfault.
  destruct (byId (store w) !! FormValue r "id") as [name|] eqn:Hid; [|by left].
  destruct (Hids _ _ Hid) as [page Hpage]. rewrite Hpage.
  right. by exists name, page.
Qed.
End Invariants.

(** ** Routing, page views and the sitemap *)

Section RouteFacts.
Context `{E : Externals}.
Variable baseUrl : string.
Variable FprintfVerbs : string → string.
Implicit Types (r : Input) (req : Request) (w : World) (page : Page).

Lemma apiPut_store r w :
  store (snd (run (apiPut r) w)) = store w ∨ isOk (fst (run (apiPut r) w)) = true.
Proof.
  apply apiPut_cases; [by left|]. intros slug website _. cbv zeta.
  destruct (putFault r); [by left|by right].
Qed.

(** X16: [apiHandler] changes the database only for a PUT or a POST on
    the path /api, and only when it answers [ok]. *)
Theorem apiHandler_writes req w :
  store (snd (apiHandler req w)) ≠ store w →
  Path req = "/api"
  ∧ (Method req = "PUT" ∨ Method req = "POST")
  ∧ ∃ resp, fst (apiHandler req w) = Wrote resp ∧ isOk resp = true.
Proof.
  unfold apiHandler, wrote.
  destruct (String.eqb (Path req) "/api") eqn:Hpath; simpl; [|done].
  apply String.eqb_eq in Hpath.
  destruct (String.eqb (Method req) "PUT") eqn:Hput.
  { apply String.eqb_eq in Hput. intros Hchanged. simpl in *.
    destruct (apiPut_store (values req) w) as [|Hok]; [done|]. eauto 10. }
  destruct (String.eqb (Method req) "POST") eqn:Hpost.
  { apply String.eqb_eq in Hpost. intros Hchanged. simpl in *.
    destruct (apiPost_store (values req) w) as [|Hok]; [done|]. eauto 10. }
  destruct (String.eqb (Method req) "GET"); simpl; [|done].
  by rewrite apiGet_store.
Qed.

Lemma servePage_reads req w :
  store (snd (servePage req w)) = store w
  ∧ rng (snd (servePage req w)) = rng w
  ∧ putsOf (calls (snd (servePage req w))) = putsOf (calls w).
Proof.
  unfold servePage. destruct (Path req) as [|c name]; [done|].
  unfold doGetPage.
  destruct (storeGetPage _ _ _) as [[page|] [e|]]; simpl;
    repeat split; apply putsOf_snoc_get.
Qed.

(** X17: [homeHandler] only reads: whatever the request, the database and
    the random source are as they were, and no write is among the store
    calls. *)
Theorem homeHandler_reads req w :
  store (snd (homeHandler baseUrl FprintfVerbs req w)) = store w
  ∧ rng (snd (homeHandler baseUrl FprintfVerbs req w)) = rng w
  ∧ putsOf (calls (snd (homeHandler baseUrl FprintfVerbs req w))) = putsOf (calls w).
Proof.
  unfold homeHandler.
  destruct (String.eqb (Path req) "/"); [done|].
  destruct (String.eqb (Path req) "/favicon.ico"); [done|].
  destruct (String.eqb (Path req) "/robots.txt"); [done|].
  destruct (String.eqb (Path req) "/sitemap.txt"); [|apply servePage_reads].
  unfold sitemap. by destruct (storeIteratePages _ _ _ _).
Qed.

Lemma newName_has_dash r w : contains (newName r w) "-" = true.
Proof.
  unfold newName. rewrite !contains_app. simpl. by rewrite orb_true_r.
Qed.

(** The name of a new page is none of the names the site serves itself. *)
Lemma newName_route r w :
  String.eqb ("/" +:+ newName r w) "/" = false
  ∧ String.eqb ("/" +:+ newName r w) "/favicon.ico" = false
  ∧ String.eqb ("/" +:+ newName r w) "/robots.txt" = false
  ∧ String.eqb ("/" +:+ newName r w) "/sitemap.txt" = false.
Proof.
  pose proof (newName_has_dash r w) as Hdash.
  repeat split; apply String.eqb_neq;
    change ("/" +:+ newName r w) with (String "/" (newName r w));
    intros [= Heq]; by rewrite Heq in Hdash.
Qed.

(** X18: a page that a creation has stored is what the site serves under
    its name: the request of the path made of a slash and the new name is
    answered by the page template with that page, for the new name is
    never the name of a route of the site itself. *)
Theorem created_page_is_served r w req :
  isOk (fst (run (apiPut r) w)) = true →
  Path req = "/" +:+ newName r w →
  getFault (values req) = None →
  ∃ page,
    byName (store (snd (run (apiPut r) w))) !! newName r w = Some page
    ∧ fst (homeHandler baseUrl FprintfVerbs req (snd (run (apiPut r) w)))
      = Render "page.html" "page" (Some page).
Proof.
  intros Hok Hpath Hfault.
  destruct (apiPut_ok_run _ _ Hok) as (page & g & -> & Hid & Hname & _).
  cbn [snd store].
  assert (byName (fst (storePutPage None (store w) page)) !! newName r w
          = Some page) as Hstored.
  { rewrite <- Hname. unfold storePutPage. cbn [fst byName].
    apply lookup_insert_eq. }
  exists page. split; [done|].
  destruct (newName_route r w) as (H1 & H2 & H3 & H4).
  unfold homeHandler. rewrite Hpath, H1, H2, H3, H4.
  unfold servePage. rewrite Hpath.
  change ("/" +:+ newName r w) with (String "/" (newName r w)). cbv iota.
  unfold doGetPage, storeGetPage. rewrite Hfault. cbn [store].
  by rewrite Hstored.
Qed.

Lemma append_assoc_string (s1 s2 s3 : string) :
  (s1 +:+ s2) +:+ s3 = s1 +:+ (s2 +:+ s3).
Proof.
  induction s1 as [|c s1 IH]; [done|].
  change (String c s1 +:+ s2) with (String c (s1 +:+ s2)).
  change (String c (s1 +:+ s2) +:+ s3) with (String c ((s1 +:+ s2) +:+ s3)).
  change (String c s1 +:+ (s2 +:+ s3)) with (String c (s1 +:+ (s2 +:+ s3))).
  by rewrite IH.
Qed.

Lemma append_empty_r (s : string) : s +:+ "" = s.
Proof.
  induction s as [|c s IH]; [done|].
  change (String c s +:+ "") with (String c (s +:+ "")). by rewrite IH.
Qed.

(** The visits of [sitemap] add one line per record and never fail. *)
Lemma visitAll_sitemap (kvs : list (string * Page)) (out : string) :
  visitAll (sitemapVisit baseUrl) kvs out
  = (out +:+ sitemapLines baseUrl (kvs.*1), None).
Proof.
  revert out. induction kvs as [|[k v] kvs IH]; intros out; simpl.
  { by rewrite append_empty_r. }
  rewrite IH. f_equal. by rewrite append_assoc_string.
Qed.

#[local] Instance keyLe_total : Total keyLe.
Proof. intros a b. apply (String.le_total a.1 b.1). Qed.

(** X19: when the scan meets no storage fault, the sitemap is the line of
    the base URL followed by one line per stored page, made of the base
    URL, a slash and the name of the page; the names are in ascending
    order, none comes twice, and they are exactly the names under which a
    record is stored. *)
Theorem sitemap_lists_stored_names req w :
  getFault (values req) = None →
  ∃ names,
    sitemap baseUrl FprintfVerbs req w
    = (Plain (Fprintf0 FprintfVerbs (baseUrl +:+ ("/" +:+ newline))
              +:+ sitemapLines baseUrl names), w)
    ∧ Sorted String.le names
    ∧ NoDup names
    ∧ ∀ name, name ∈ names ↔ is_Some (byName (store w) !! name).
Proof.
  intros Hfault. exists ((scanOrder (store w)).*1).
  unfold sitemap, storeIteratePages. rewrite Hfault, visitAll_sitemap.
  split; [done|].
  assert ((scanOrder (store w)).*1 ≡ₚ (map_to_list (byName (store w))).*1) as Hperm.
  { unfold scanOrder. by rewrite merge_sort_Permutation. }
  split; [|split].
  - apply (Sorted_fmap _ keyLe); [done|]. apply Sorted_merge_sort, _.
  - rewrite Hperm. apply NoDup_fst_map_to_list.
  - intros name. rewrite Hperm, list_elem_of_fmap. split.
    + intros ([k v] & -> & Hin%elem_of_map_to_list). by eexists.
    + intros [v Hv]. exists (name, v). split; [done|].
      by apply elem_of_map_to_list.
Qed.

(** X20: [homeHandler] panics on the empty path and on no other; and a
    path that is none of the four routes of the site itself, and whose
    part after the first byte names no stored page, is answered as not
    found when the read meets no storage fault. *)
Theorem homeHandler_missing_page req w :
  (fst (homeHandler baseUrl FprintfVerbs req w) = Panic ↔ Path req = "")
  ∧ (∀ c name,
       Path req = String c name →
       Path req ≠ "/" → Path req ≠ "/favicon.ico" →
       Path req ≠ "/robots.txt" → Path req ≠ "/sitemap.txt" →
       getFault (values req) = None →
       byName (store w) !! name = None →
       fst (homeHandler baseUrl FprintfVerbs req w) = NotFound).
Proof.
  unfold homeHandler. split.
  - destruct (String.eqb (Path req) "/") eqn:H1.
    { apply String.eqb_eq in H1. rewrite H1. done. }
    destruct (String.eqb (Path req) "/favicon.ico") eqn:H2.
    { apply String.eqb_eq in H2. rewrite H2. done. }
    destruct (String.eqb (Path req) "/robots.txt") eqn:H3.
    { apply String.eqb_eq in H3. rewrite H3. done. }
    destruct (String.eqb (Path req) "/sitemap.txt") eqn:H4.
    { apply String.eqb_eq in H4. rewrite H4. unfold sitemap.
      by destruct (storeIteratePages _ _ _ _). }
    unfold servePage. destruct (Path req) as [|c name]; [done|].
    unfold doGetPage.
    by destruct (storeGetPage _ _ _) as [[page|] [e|]].
  - intros c name Hpath H1%String.eqb_neq H2%String.eqb_neq
      H3%String.eqb_neq H4%String.eqb_neq Hfault Hmissing.
    rewrite H1, H2, H3, H4. unfold servePage. rewrite Hpath.
    unfold doGetPage, storeGetPage. rewrite Hfault, Hmissing. done.
Qed.
End RouteFacts.

(** ** The handlers on concrete requests *)

Import Demo.

Lemma world1_wf : wfDB (store world1).
Proof. exact (apiPut_wf createHello world0 wfDB_empty). Qed.

Lemma world1_hello :
  storeGetPage None (store world1) "hello-world-bbbbbbbb" = (Some helloPage, None).
Proof. vm_compute. reflexivity. Qed.

(** A creation with a twitter handle that holds digits is turned down, with
    a message that says numbers are allowed. *)
Lemma create_with_digit_handle :
  fst (run (apiPut createAgent) world0)
  = SendError "Invalid Twitter Handle. Only letters, numbers, and underscore allowed."
  ∧ snd (run (apiPut createAgent) world0) = world0.
Proof. split; vm_compute; reflexivity. Qed.

Lemma update_wrong_id_denied_witness :
  fst (run (apiPost updateWrongId) world1) = SendError "Permission denied."
  ∧ calls (snd (run (apiPost updateWrongId) world1))
    = calls world1 ++ [CallGet (FormValue updateWrongId "name")]
  ∧ putsOf (calls (snd (run (apiPost updateWrongId) world1))) = putsOf (calls world1)
  ∧ store (snd (run (apiPost updateWrongId) world1)) = store world1
  ∧ byName (store (snd (run (apiPost updateWrongId) world1)))
      !! FormValue updateWrongId "name" = Some helloPage.
Proof.
  apply (update_wrong_id_denied updateWrongId world1 helloPage).
  - vm_compute. reflexivity.
  - vm_compute. discriminate.
Defined.

Lemma update_keeps_identity_witness :
  ∃ old new,
    byName (store world1) !! FormValue updateHello "name" = Some old
    ∧ Id old = FormValue updateHello "id"
    ∧ byName (store (snd (run (apiPost updateHello) world1)))
        !! FormValue updateHello "name" = Some new
    ∧ putsOf (calls (snd (run (apiPost updateHello) world1)))
      = putsOf (calls world1) ++ [CallPut new]
    ∧ Id new = Id old ∧ Name new = Name old ∧ Inserted new = Inserted old
    ∧ Updated new = now updateHello
    ∧ Title new = FormValue updateHello "title"
    ∧ Content new = FormValue updateHello "content"
    ∧ Author new = FormValue updateHello "author"
    ∧ Twitter new = FormValue updateHello "twitter"
    ∧ GitHub new = FormValue updateHello "github"
    ∧ Facebook new = FormValue updateHello "facebook"
    ∧ Instagram new = FormValue updateHello "instagram"
    ∧ websiteChecked updateHello new
    ∧ Html new = MarkdownCommon (FormValue updateHello "content").
Proof.
  apply (update_keeps_identity updateHello world1).
  - exact world1_wf.
  - vm_compute. reflexivity.
Defined.

(** C4, as stated, fails: an update whose title has an empty slug and
    whose name is not stored is answered that the page does not exist. *)
Lemma update_unknown_name_answer :
  Slugify (FormValue updateUnknown "title") = ""
  ∧ fst (run (apiPost updateUnknown) world1) = SendError "This page name does not exist."
  ∧ fst (run (apiPost updateUnknown) world1) ≠ SendError "Provide a title".
Proof. repeat split; vm_compute; [reflexivity..|discriminate]. Qed.

Lemma no_title_rejected_witness :
  run (apiPut updateNoTitle) world1 = (SendError "Provide a title", world1)
  ∧ fst (run (apiPost updateNoTitle) world1) = SendError "Provide a title"
  ∧ store (snd (run (apiPost updateNoTitle) world1)) = store world1.
Proof.
  assert (Slugify (FormValue updateNoTitle "title") = "") as Hslug
    by (vm_compute; reflexivity).
  destruct (no_title_rejected updateNoTitle world1 Hslug) as (Hput & Hpost & Hstore & _).
  split; [exact Hput|]. split; [|exact Hstore].
  apply (Hpost helloPage); vm_compute; reflexivity.
Defined.

Lemma update_checks_in_order_witness :
  Slugify (FormValue updateWrongId "title") = ""
  ∧ fst (run (apiPost updateWrongId) world1) = SendError "Permission denied."
  ∧ fst (run (apiPost updateUnknown) world1) = SendError "This page name does not exist."
  ∧ fst (run (apiPost updateNoTitle) world1) = SendError "Provide a title".
Proof.
  split; [vm_compute; reflexivity|]. split; [|split].
  - destruct (update_checks_in_order updateWrongId world1) as (_ & Hdenied & _).
    apply (Hdenied helloPage); vm_compute; [reflexivity|discriminate].
  - destruct (update_checks_in_order updateUnknown world1) as (Hmissing & _).
    apply Hmissing. vm_compute. reflexivity.
  - destruct (update_checks_in_order updateNoTitle world1) as (_ & _ & Hinvalid).
    apply (Hinvalid helloPage); vm_compute; reflexivity.
Defined.

Lemma stored_html_renders_content_witness :
  (∃ page,
     fst (run (apiPut createHello) world0)
     = SendJson true "Saved" (PayloadMap (idNamePayload page))
     ∧ byName (store (snd (run (apiPut createHello) world0))) !! Name page = Some page
     ∧ Content page = FormValue createHello "content"
     ∧ Html page = MarkdownCommon (Content page))
  ∧ (∃ page,
       byName (store (snd (run (apiPost updateHello) world1)))
         !! FormValue updateHello "name" = Some page
       ∧ Content page = FormValue updateHello "content"
       ∧ Html page = MarkdownCommon (Content page)).
Proof.
  split.
  - apply (stored_html_renders_content createHello world0).
    vm_compute. reflexivity.
  - apply (stored_html_renders_content updateHello world1).
    + exact world1_wf.
    + vm_compute. reflexivity.
Defined.

(** C7, as stated, fails twice.  A creation with a website that does not
    parse and a title without a slug is answered with the title error,
    not with the website error.  And a creation with the website /about,
    which has no scheme and so is no absolute URL, is not answered with
    the website error: it succeeds, and /about is what the page stores. *)
Lemma website_check_divergences :
  (FormValue createNoTitleBadSite "website" ≠ ""
   ∧ ParseRequestURI (FormValue createNoTitleBadSite "website") = None
   ∧ fst (run (apiPut createNoTitleBadSite) world0) = SendError "Provide a title"
   ∧ fst (run (apiPut createNoTitleBadSite) world0) ≠ SendError "Invalid website URL")
  ∧ (FormValue DemoSites.createAbout "website" = "/about"
     ∧ SpecURL.hasScheme "/about" = false
     ∧ fst (run (apiPut DemoSites.createAbout) world0)
       = SendJson true "Saved"
           (PayloadMap (<["name" := "about-bbbbbbbb"]> (<["id" := "aaaaaaaaaaaaaaaa"]> ∅)))
     ∧ fst (run (apiPut DemoSites.createAbout) world0) ≠ SendError "Invalid website URL"
     ∧ Website <$> (byName (store (snd (run (apiPut DemoSites.createAbout) world0)))
                      !! "about-bbbbbbbb")
       = Some "/about").
Proof.
  split.
  - repeat split; vm_compute; [discriminate|reflexivity..|discriminate].
  - split; [vm_compute; reflexivity|].
    split; [vm_compute; reflexivity|].
    split; [vm_compute; reflexivity|].
    split; [vm_compute; discriminate|vm_compute; reflexivity].
Qed.

(** The scheme test on websites the requests of this file carry. *)
Lemma hasScheme_examples :
  SpecURL.hasScheme "https://example.com" = true
  ∧ SpecURL.hasScheme "/about" = false
  ∧ SpecURL.hasScheme "not a url" = false
  ∧ SpecURL.hasScheme "" = false.
Proof. repeat split; vm_compute; reflexivity. Qed.

Lemma website_checked_after_title_witness :
  run (apiPut createBadSite) world0 = (SendError "Invalid website URL", world0)
  ∧ (∃ page,
       fst (run (apiPut createHello) world0)
       = SendJson true "Saved" (PayloadMap (idNamePayload page))
       ∧ byName (store (snd (run (apiPut createHello) world0))) !! Name page = Some page
       ∧ websiteChecked createHello page)
  ∧ (∃ page,
       byName (store (snd (run (apiPost updateSite) world1)))
         !! FormValue updateSite "name" = Some page
       ∧ websiteChecked updateSite page)
  ∧ fst (run (apiPost updateHello) world1) ≠ SendError "Invalid website URL"
  ∧ (FormValue createBadSite "website" ≠ ""
     ∧ ParseRequestURI (FormValue createBadSite "website") = None).
Proof.
  split; [|split; [|split; [|split]]].
  - destruct (website_checked_after_title createBadSite world0) as (Hbad & _).
    apply Hbad; vm_compute; [discriminate|discriminate|reflexivity].
  - destruct (website_checked_after_title createHello world0) as (_ & Hok & _).
    apply Hok. vm_compute. reflexivity.
  - destruct (website_checked_after_title updateSite world1)
      as (_ & _ & _ & _ & Hok & _).
    apply Hok; [exact world1_wf|].
    vm_compute. reflexivity.
  - destruct (website_checked_after_title updateHello world1)
      as (_ & _ & _ & _ & _ & Hempty & _).
    apply Hempty. vm_compute. reflexivity.
  - destruct (website_checked_after_title createBadSite world0)
      as (_ & _ & _ & _ & _ & _ & Honly & _).
    apply Honly. vm_compute. reflexivity.
Defined.

(** C8, as stated, fails: the answer to a creation is a map that holds the
    id and the name, not the page. *)
Lemma create_hello_answer :
  fst (run (apiPut createHello) world0)
  = SendJson true "Saved"
      (PayloadMap (<["name" := "hello-world-bbbbbbbb"]> (<["id" := "aaaaaaaaaaaaaaaa"]> ∅)))
  ∧ (∀ page, fst (run (apiPut createHello) world0)
             ≠ SendJson true "Saved" (PayloadPage page))
  ∧ byName (store (snd (run (apiPut createHello) world0))) !! "hello-world-bbbbbbbb"
    = Some helloPage
  ∧ idNamePayload helloPage !! "title" = None
  ∧ idNamePayload helloPage !! "content" = None.
Proof.
  split; [vm_compute; reflexivity|].
  split; [intros page; vm_compute; discriminate|].
  repeat split; vm_compute; reflexivity.
Qed.

Lemma create_answers_id_and_name_witness :
  ∃ page fields,
    fst (run (apiPut createHello) world0) = SendJson true "Saved" (PayloadMap fields)
    ∧ byName (store (snd (run (apiPut createHello) world0))) !! Name page = Some page
    ∧ fields !! "id" = Some (Id page)
    ∧ fields !! "name" = Some (Name page)
    ∧ ∀ key, key ≠ "id" → key ≠ "name" → fields !! key = None.
Proof.
  apply (create_answers_id_and_name createHello world0).
  vm_compute. reflexivity.
Defined.

Lemma created_name_is_slug_dash_suffix_witness :
  ∃ page,
    fst (run (apiPut createHello) world0)
    = SendJson true "Saved" (PayloadMap (idNamePayload page))
    ∧ idNamePayload page !! "name" = Some (Name page)
    ∧ byName (store (snd (run (apiPut createHello) world0))) !! Name page = Some page
    ∧ Id page = fst (randStr 16 (rng world0))
    ∧ Name page = (Slugify (FormValue createHello "title") +:+ "-")
                  +:+ fst (randStr 8 (snd (randStr 16 (rng world0))))
    ∧ Name page ≠ ""
    ∧ byId (store (snd (run (apiPut createHello) world0))) !! Id page = Some (Name page)
    ∧ calls (snd (run (apiPut createHello) world0)) = calls world0 ++ [CallPut page]
    ∧ rng (snd (run (apiPut createHello) world0))
      = snd (randStr 8 (snd (randStr 16 (rng world0))))
    ∧ (∀ r2,
         isOk (fst (run (apiPut r2) (snd (run (apiPut createHello) world0)))) = true →
         ∃ page2,
           fst (run (apiPut r2) (snd (run (apiPut createHello) world0)))
           = SendJson true "Saved" (PayloadMap (idNamePayload page2))
           ∧ Id page2
             = fst (randStr 16 (snd (randStr 8 (snd (randStr 16 (rng world0))))))
           ∧ Name page2
             = (Slugify (FormValue r2 "title") +:+ "-")
               +:+ fst (randStr 8 (snd (randStr 16
                        (snd (randStr 8 (snd (randStr 16 (rng world0))))))))).
Proof.
  apply (created_name_is_slug_dash_suffix createHello world0).
  vm_compute. reflexivity.
Defined.

(** Two creations one after the other draw different ids and suffixes
    from the counter that stands in for the random source. *)
Lemma two_creations_draw_anew :
  fst (run (apiPut createHello) world0)
  = SendJson true "Saved"
      (PayloadMap (<["name" := "hello-world-bbbbbbbb"]> (<["id" := "aaaaaaaaaaaaaaaa"]> ∅)))
  ∧ fst (run (apiPut createHello) (snd (run (apiPut createHello) world0)))
    = SendJson true "Saved"
        (PayloadMap (<["name" := "hello-world-dddddddd"]> (<["id" := "cccccccccccccccc"]> ∅))).
Proof. split; vm_compute; reflexivity. Qed.

(** ** The further properties on concrete requests *)

Import DemoRoutes.

Lemma storeChecked_empty : storeChecked emptyDB.
Proof. intros name page. simpl. by rewrite lookup_empty. Qed.

Lemma idsResolve_empty : idsResolve emptyDB.
Proof. intros id name. simpl. by rewrite lookup_empty. Qed.

Lemma world1_idsResolve : idsResolve (store world1).
Proof. exact (idsResolve_put None emptyDB helloPage idsResolve_empty). Qed.

Lemma ascii_handle_accepted_witness :
  isValidTwitterHandle (fun s => s) "John_Doe"
  = allBytes (fun c => isLetter c || Ascii.eqb c "_") "John_Doe"
  ∧ isValidGitHubHandle (fun s => s) "John_Doe"
    = allBytes (fun c => isLetter c || Ascii.eqb c "-") "John_Doe"
  ∧ isValidFacebookHandle (fun s => s) "John_Doe"
    = allBytes (fun c => isLetter c || Ascii.eqb c ".") "John_Doe"
  ∧ isValidInstagramHandle (fun s => s) "John_Doe" = allBytes isLetter "John_Doe".
Proof.
  apply (ascii_handle_accepted (fun s => s) "John_Doe").
  vm_compute. reflexivity.
Defined.

Lemma ascii_handles_concatenate_witness :
  isValidTwitterHandle (fun s => s) ("John" +:+ "_Doe")
  = isValidTwitterHandle (fun s => s) "John" && isValidTwitterHandle (fun s => s) "_Doe"
  ∧ isValidGitHubHandle (fun s => s) ("John" +:+ "_Doe")
    = isValidGitHubHandle (fun s => s) "John" && isValidGitHubHandle (fun s => s) "_Doe"
  ∧ isValidFacebookHandle (fun s => s) ("John" +:+ "_Doe")
    = isValidFacebookHandle (fun s => s) "John" && isValidFacebookHandle (fun s => s) "_Doe"
  ∧ isValidInstagramHandle (fun s => s) ("John" +:+ "_Doe")
    = isValidInstagramHandle (fun s => s) "John"
      && isValidInstagramHandle (fun s => s) "_Doe".
Proof.
  apply (ascii_handles_concatenate (fun s => s) "John" "_Doe");
    vm_compute; reflexivity.
Defined.

Lemma validation_passes_iff_witness :
  ∃ slug website, validationOf createHello = inr (slug, website).
Proof.
  apply (validation_passes_iff createHello).
  split; [vm_compute; discriminate|].
  split; [right; eexists; vm_compute; reflexivity|].
  repeat split; vm_compute; reflexivity.
Defined.

Lemma validation_first_failure_witness :
  validationOf createAgent
  = inl (SendError "Invalid Twitter Handle. Only letters, numbers, and underscore allowed.").
Proof.
  destruct (validation_first_failure createAgent) as (_ & _ & [_ Htwitter] & _).
  apply Htwitter.
  split; [vm_compute; discriminate|].
  split; [left; vm_compute; reflexivity|vm_compute; reflexivity].
Defined.

Lemma store_written_only_on_ok_witness :
  store (snd (run (apiPost updateWrongId) world1)) = store world1.
Proof.
  destruct (store_written_only_on_ok updateWrongId world1) as (_ & Hpost & _).
  apply Hpost. vm_compute. reflexivity.
Defined.

Lemma create_writes_one_record_witness :
  byName (store (snd (run (apiPut createAgain) world1))) !! "hello-world-bbbbbbbb"
  = byName (store world1) !! "hello-world-bbbbbbbb".
Proof.
  destruct (create_writes_one_record createAgain world1) as (_ & Hnames & _).
  apply Hnames. vm_compute. discriminate.
Defined.

Lemma update_changes_only_own_record_witness :
  ∃ old, byName (store world1) !! FormValue updateHello "name" = Some old
         ∧ Id old = FormValue updateHello "id"
         ∧ Name old = "hello-world-bbbbbbbb".
Proof.
  destruct (update_changes_only_own_record updateHello world1) as [Hnames _].
  apply Hnames. vm_compute. discriminate.
Defined.

Lemma lookup_after_write_witness :
  ∃ page,
    byName (store (snd (run (apiPut createHello) world0)))
      !! newName createHello world0 = Some page
    ∧ fst (run (apiGet lookupHello) (snd (run (apiPut createHello) world0)))
      = SendJson true "Saved" (PayloadPage page).
Proof.
  destruct (lookup_after_write createHello world0 lookupHello) as [Hput _];
    [vm_compute; reflexivity|].
  apply Hput; vm_compute; reflexivity.
Defined.

Lemma update_after_create_witness :
  fst (run (apiPost updateHello) (snd (run (apiPut createHello) world0)))
  = fst (run (apiPut createHello) world0)
  ∧ ∃ page,
      byName (store (snd (run (apiPost updateHello) (snd (run (apiPut createHello) world0)))))
        !! newName createHello world0 = Some page
      ∧ Inserted page = now createHello ∧ Updated page = now updateHello
      ∧ Content page = FormValue updateHello "content".
Proof.
  destruct (update_after_create createHello world0 updateHello) as [_ Hsame];
    [vm_compute; reflexivity..|].
  apply Hsame; [vm_compute; reflexivity..|].
  eexists _, _. vm_compute. reflexivity.
Defined.

Lemma update_answers_id_and_name_witness :
  ∃ fields,
    fst (run (apiPost updateHello) world1) = SendJson true "Saved" (PayloadMap fields)
    ∧ fields !! "id" = Some (FormValue updateHello "id")
    ∧ fields !! "name" = Some (FormValue updateHello "name")
    ∧ ∀ key, key ≠ "id" → key ≠ "name" → fields !! key = None.
Proof.
  apply (update_answers_id_and_name updateHello world1).
  - exact world1_wf.
  - vm_compute. reflexivity.
Defined.


Lemma handlers_keep_buckets_in_step_witness :
  wfDB (store world1) ∧ idsResolve (store world1).
Proof.
  destruct (handlers_keep_buckets_in_step createHello world0) as [[Hwf Hids] Hkeep].
  destruct (Hkeep Hwf Hids) as (Hput & _). exact Hput.
Defined.

Lemma lookup_on_resolving_store_witness :
  (byId (store world1) !! FormValue lookupHello "id" = None
   ∧ fst (run (apiGet lookupHello) world1) = SendError "This page Id does not exist.")
  ∨ (∃ name page,
       byId (store world1) !! FormValue lookupHello "id" = Some name
       ∧ byName (store world1) !! name = Some page
       ∧ fst (run (apiGet lookupHello) world1) = SendJson true "Saved" (PayloadPage page)).
Proof.
  apply (lookup_on_resolving_store lookupHello world1).
  - exact world1_idsResolve.
  - vm_compute. reflexivity.
Defined.

Lemma apiHandler_writes_witness :
  Path putApi = "/api"
  ∧ (Method putApi = "PUT" ∨ Method putApi = "POST")
  ∧ ∃ resp, fst (apiHandler putApi world0) = Wrote resp ∧ isOk resp = true.
Proof.
  apply (apiHandler_writes putApi world0). vm_compute. discriminate.
Defined.

Lemma created_page_is_served_witness :
  ∃ page,
    byName (store (snd (run (apiPut createHello) world0)))
      !! newName createHello world0 = Some page
    ∧ fst (homeHandler "https://publish.li" (fun s => s)
             (get "/hello-world-bbbbbbbb") (snd (run (apiPut createHello) world0)))
      = Render "page.html" "page" (Some page).
Proof.
  apply (created_page_is_served "https://publish.li" (fun s => s) createHello world0
           (get "/hello-world-bbbbbbbb")); vm_compute; reflexivity.
Defined.

Lemma sitemap_lists_stored_names_witness :
  ∃ names,
    sitemap "https://publish.li" (fun s => s) (get "/sitemap.txt")
      (snd (run (apiPut createAgain) world1))
    = (Plain (Fprintf0 (fun s => s) ("https://publish.li" +:+ ("/" +:+ newline))
              +:+ sitemapLines "https://publish.li" names),
       snd (run (apiPut createAgain) world1))
    ∧ Sorted String.le names
    ∧ NoDup names
    ∧ ∀ name, name ∈ names
              ↔ is_Some (byName (store (snd (run (apiPut createAgain) world1))) !! name).
Proof.
  apply (sitemap_lists_stored_names "https://publish.li" (fun s => s)
           (get "/sitemap.txt") (snd (run (apiPut createAgain) world1))).
  vm_compute. reflexivity.
Defined.

(** The sitemap of the database with the two pages of the requests above. *)
Lemma sitemap_of_two_pages :
  fst (sitemap "https://publish.li" (fun s => s) (get "/sitemap.txt")
         (snd (run (apiPut createAgain) world1)))
  = Plain (sitemapLines "https://publish.li"
             [""; "hello-world-bbbbbbbb"; "second-page-dddddddd"]).
Proof. vm_compute. reflexivity. Qed.

Lemma homeHandler_missing_page_witness :
  fst (homeHandler "https://publish.li" (fun s => s) (get "/no-such-page") world1)
  = NotFound.
Proof.
  destruct (homeHandler_missing_page "https://publish.li" (fun s => s)
              (get "/no-such-page") world1) as [_ Hmissing].
  apply (Hmissing "/"%char "no-such-page");
    vm_compute; first [reflexivity | discriminate].
Defined.
